(** * Kust: the serial protocol driver of the interface box (Kust.py)

    A shallow embedding of the classes [Kust] and [Kust.SerialCommunication]
    and of the parts of the Python runtime they rest on: text as sequences of
    code points, the backtracking matcher of [re] for the response pattern,
    UTF-8, [float] and [int] applied to text, and binary64 arithmetic. *)

From Stdlib Require Import List NArith ZArith Bool String Ascii Lia.
From Stdlib Require Import Strings.Byte Numbers.DecimalString.
From Stdlib Require Import Floats.SpecFloat.
From stdpp Require Import base list.
Import ListNotations.

Local Open Scope N_scope.

(** ** Text and bytes *)

(** A Python [str] is a sequence of Unicode code points. *)
Definition str := list N.

(** A Python [bytes] object. *)
Definition bytes := list byte.

(** The code points of an ASCII literal of the source. *)
Definition txt (s : string) : str := map N_of_ascii (list_ascii_of_string s).

(** The bytes of an ASCII literal. *)
Definition raw (s : string) : bytes := map byte_of_ascii (list_ascii_of_string s).

Definition CR : N := 13.
Definition LF : N := 10.

Fixpoint str_eqb (a b : str) : bool :=
  match a, b with
  | [], [] => true
  | x :: a', y :: b' => (x =? y) && str_eqb a' b'
  | _, _ => false
  end.

(** ** The interpreter's character database

    [\w], [\d] and [\s] of a [str] pattern, [float] and [int] classify code
    points with the interpreter's Unicode database.  Its ASCII part is fixed
    below; the rest of the table belongs to the interpreter and is a parameter
    of the development. *)
Class unicode_db := {
  uni_decimal : N -> option N;  (* the value of a decimal digit (category Nd) *)
  uni_alnum : N -> bool;        (* alphabetic, digit or numeric *)
  uni_space : N -> bool         (* whitespace *)
}.

Definition ascii_digit (c : N) : bool := (48 <=? c) && (c <=? 57).

Definition ascii_alpha (c : N) : bool :=
  ((65 <=? c) && (c <=? 90)) || ((97 <=? c) && (c <=? 122)).

(** Whitespace of [str] below 128: TAB..CR, FS..US and the space. *)
Definition ascii_uspace (c : N) : bool :=
  ((9 <=? c) && (c <=? 13)) || ((28 <=? c) && (c <=? 31)) || (c =? 32).

(** Whitespace of the C layer ([Py_ISSPACE]): TAB..CR and the space. *)
Definition c_space (c : N) : bool := ((9 <=? c) && (c <=? 13)) || (c =? 32).

(** ** UTF-8

    [str.encode] and [bytes.decode] with the default, strict error handler:
    a lone surrogate cannot be encoded, and a byte sequence that is not
    well-formed UTF-8 cannot be decoded. *)

Definition utf8_encode_char (c : N) : option (list N) :=
  if c <? 0x80 then Some [c]
  else if c <? 0x800 then Some [0xC0 + c / 64; 0x80 + c mod 64]
  else if c <? 0x10000 then
    if (0xD800 <=? c) && (c <=? 0xDFFF) then None
    else Some [0xE0 + c / 4096; 0x80 + (c / 64) mod 64; 0x80 + c mod 64]
  else if c <? 0x110000 then
    Some [0xF0 + c / 262144; 0x80 + (c / 4096) mod 64; 0x80 + (c / 64) mod 64;
          0x80 + c mod 64]
  else None.

Fixpoint to_bytes (l : list N) : option bytes :=
  match l with
  | [] => Some []
  | n :: l' =>
      match Byte.of_N n, to_bytes l' with
      | Some b, Some bs => Some (b :: bs)
      | _, _ => None
      end
  end.

(** [s.encode(encoding = 'UTF-8')]; [None] stands for UnicodeEncodeError. *)
Fixpoint utf8_encode (s : str) : option bytes :=
  match s with
  | [] => Some []
  | c :: s' =>
      match utf8_encode_char c with
      | Some l =>
          match to_bytes l, utf8_encode s' with
          | Some b, Some bs => Some (b ++ bs)
          | _, _ => None
          end
      | None => None
      end
  end.

Definition between (lo hi b : N) : bool := (lo <=? b) && (b <=? hi).

(** A continuation byte carries six bits. *)
Definition cont (b : N) : bool := between 0x80 0xBF b.

Fixpoint utf8_decode_N (l : list N) : option str :=
  match l with
  | [] => Some []
  | b0 :: l1 =>
      if b0 <? 0x80 then cons b0 <$> utf8_decode_N l1
      else if between 0xC2 0xDF b0 then
        match l1 with
        | b1 :: l2 =>
            if cont b1 then cons ((b0 - 0xC0) * 64 + (b1 - 0x80)) <$> utf8_decode_N l2
            else None
        | _ => None
        end
      else if between 0xE0 0xEF b0 then
        match l1 with
        | b1 :: b2 :: l3 =>
            let lo := if b0 =? 0xE0 then 0xA0 else 0x80 in
            let hi := if b0 =? 0xED then 0x9F else 0xBF in
            if between lo hi b1 && cont b2 then
              cons ((b0 - 0xE0) * 4096 + (b1 - 0x80) * 64 + (b2 - 0x80)) <$> utf8_decode_N l3
            else None
        | _ => None
        end
      else if between 0xF0 0xF4 b0 then
        match l1 with
        | b1 :: b2 :: b3 :: l4 =>
            let lo := if b0 =? 0xF0 then 0x90 else 0x80 in
            let hi := if b0 =? 0xF4 then 0x8F else 0xBF in
            if between lo hi b1 && cont b2 && cont b3 then
              cons ((b0 - 0xF0) * 262144 + (b1 - 0x80) * 4096 + (b2 - 0x80) * 64 + (b3 - 0x80))
                <$> utf8_decode_N l4
            else None
        | _ => None
        end
      else None
  end.

(** [b.decode('UTF-8')]; [None] stands for UnicodeDecodeError. *)
Definition utf8_decode (b : bytes) : option str := utf8_decode_N (map Byte.to_N b).

(** ** Formatting

    The replacement field of an f-string applied to an [int] writes it in
    decimal; applied to a [str] it copies it. *)
Definition str_of_int (z : Z) : str :=
  txt (DecimalString.NilZero.string_of_int (Z.to_int z)).

(** ** binary64

    A Python [float] is an IEEE 754 binary64 number: 53 bits of precision,
    exponents below 1024, results rounded to nearest, ties to even. *)
Definition float := spec_float.

Definition prec : Z := 53.
Definition emax : Z := 1024.

(** The conversion of an [int] to [float] (exact for the two divisors of the
    source, 10 and 1000). *)
Definition float_of_Z (z : Z) : float := binary_normalize prec emax z 0 false.

(** The float [m * 2^e], for the values that have one. *)
Definition dyadic (m e : Z) : float := binary_normalize prec emax m e false.

(** [x / n] for a float [x] and a non-zero [int] literal [n]: the literal is
    converted and the quotient is rounded once.  (A zero divisor would raise
    ZeroDivisionError; neither call site has one.) *)
Definition truediv (x : float) (n : Z) : float := SFdiv prec emax x (float_of_Z n).

(** The float nearest to [m * 10^e], with sign [neg]: what the interpreter's
    correctly rounded string conversion returns for the decimal numeral with
    digits [m] and exponent [e]; too large a numeral gives an infinity. *)
Definition float_of_decimal (neg : bool) (m : N) (e : Z) : float :=
  match m with
  | N0 => S754_zero neg
  | Npos p =>
      if (0 <=? e)%Z then binary_round prec emax neg (p * Z.to_pos (10 ^ e)) 0
      else SFdiv prec emax (S754_finite neg p 0) (S754_finite false (Z.to_pos (10 ^ (- e))) 0)
  end.

Section Runtime.

Context {U : unicode_db}.

Definition to_decimal (c : N) : option N :=
  if c <? 128 then (if ascii_digit c then Some (c - 48) else None)
  else match uni_decimal c with
       | Some d => if d <? 10 then Some d else None
       | None => None
       end.

Definition is_decimal (c : N) : bool :=
  match to_decimal c with Some _ => true | None => false end.

Definition is_alnum (c : N) : bool :=
  if c <? 128 then ascii_alpha c || ascii_digit c
  else uni_alnum c || is_decimal c.

Definition is_word (c : N) : bool := is_alnum c || (c =? 95).

Definition is_space (c : N) : bool :=
  if c <? 128 then ascii_uspace c else uni_space c.

(** ** The matcher of [re]

    Python's [re] is a backtracking matcher: a greedy repetition takes as much
    as it can and gives back one character at a time, an alternation tries its
    branches from left to right, and a group remembers the text its last
    successful pass consumed.  The matcher below is written in
    continuation-passing style: [k] is the rest of the pattern. *)

Inductive atom :=
| Lit (c : N)    (* a literal character *)
| Word           (* \w *)
| Digit          (* \d *)
| Space          (* \s *)
| Dot.           (* .  (anything but a line feed) *)

Definition atom_ok (a : atom) (c : N) : bool :=
  match a with
  | Lit d => c =? d
  | Word => is_word c
  | Digit => is_decimal c
  | Space => is_space c
  | Dot => negb (c =? LF)
  end.

Inductive regex :=
| Eps
| Atom (a : atom)
| Cat (r1 r2 : regex)
| Alt (r1 r2 : regex)        (* r1|r2 *)
| Star (a : atom)            (* a*, greedy *)
| Opt (r : regex)            (* r?, greedy *)
| Grp (i : nat) (r : regex). (* capturing group number i *)

(** [r{n}] *)
Fixpoint Rep (n : nat) (r : regex) : regex :=
  match n with
  | O => Eps
  | S n' => Cat r (Rep n' r)
  end.

(** The groups of a match: number to captured text. *)
Definition groups := nat -> option str.

Definition no_groups : groups := fun _ => None.

Definition set_group (i : nat) (v : str) (g : groups) : groups :=
  fun j => if Nat.eqb j i then Some v else g j.

(** The text between the position where [s] starts and the one where its
    suffix [s'] starts. *)
Definition consumed (s s' : str) : str := take (length s - length s') s.

Fixpoint star {A : Type} (p : N -> bool) (s : str) (k : str -> option A) : option A :=
  match s with
  | c :: s' =>
      if p c then
        match star p s' k with
        | Some m => Some m
        | None => k s
        end
      else k s
  | [] => k []
  end.

Fixpoint run (r : regex) (s : str) (g : groups)
    (k : str -> groups -> option groups) : option groups :=
  match r with
  | Eps => k s g
  | Atom a =>
      match s with
      | c :: s' => if atom_ok a c then k s' g else None
      | [] => None
      end
  | Cat r1 r2 => run r1 s g (fun s' g' => run r2 s' g' k)
  | Alt r1 r2 =>
      match run r1 s g k with
      | Some m => Some m
      | None => run r2 s g k
      end
  | Star a => star (atom_ok a) s (fun s' => k s' g)
  | Opt r' =>
      match run r' s g k with
      | Some m => Some m
      | None => k s g
      end
  | Grp i r' => run r' s g (fun s' g' => k s' (set_group i (consumed s s') g'))
  end.

(** [pattern.match(s)]: the pattern is tried at the start of [s] only, and
    need not reach its end. *)
Definition re_match (r : regex) (s : str) : option groups :=
  run r s no_groups (fun _ g => Some g).

(** [parsed[i]] on a match object; an absent group is read as the empty text
    (in [pattern_inc_value] every group takes part in every match, see
    [match_groups_present]). *)
Definition group (m : groups) (i : nat) : str :=
  match m i with Some v => v | None => [] end.

Definition lit (s : string) : regex :=
  fold_right (fun c r => Cat (Atom (Lit c)) r) Eps (txt s).

(** ** [float] and [int] applied to text *)

(** Non-ASCII digits and whitespace are first mapped to ASCII; anything else
    that is not ASCII becomes a question mark and ends the text.  Text that is
    ASCII already is taken as it is. *)
Fixpoint transform_loop (s : str) : str :=
  match s with
  | [] => []
  | c :: s' =>
      if c <? 127 then c :: transform_loop s'
      else if is_space c then 32 :: transform_loop s'
      else match to_decimal c with
           | Some d => (48 + d) :: transform_loop s'
           | None => [63]
           end
  end.

Definition transform (s : str) : str :=
  if forallb (fun c => c <? 128) s then s else transform_loop s.

Fixpoint lstrip (s : str) : str :=
  match s with
  | c :: s' => if c_space c then lstrip s' else s
  | [] => []
  end.

Definition rstrip (s : str) : str := rev (lstrip (rev s)).

(** The longest prefix of characters in [p], and the rest. *)
Fixpoint span (p : N -> bool) (s : str) : str * str :=
  match s with
  | c :: s' => if p c then let '(a, b) := span p s' in (c :: a, b) else ([], s)
  | [] => ([], [])
  end.

Definition decimal_value (ds : str) : N :=
  fold_left (fun a c => 10 * a + (c - 48)) ds 0.

Definition split_sign (s : str) : bool * str :=
  match s with
  | 43 :: r => (false, r)
  | 45 :: r => (true, r)
  | _ => (false, s)
  end.

Definition drop_underscores (s : str) : str := filter (fun c => negb (c =? 95)) s.

(** In a float numeral an underscore stands between two digits. *)
Fixpoint underscores_ok (prev : N) (s : str) : bool :=
  match s with
  | [] => negb (prev =? 95)
  | c :: s' =>
      (if c =? 95 then ascii_digit prev else negb (prev =? 95) || ascii_digit c)
      && underscores_ok c s'
  end.

Definition lower (c : N) : N := if between 65 90 c then c + 32 else c.

(** What follows the mantissa: nothing, or [e] or [E], an optional sign and
    at least one digit. *)
Definition parse_exponent (s : str) : option Z :=
  match s with
  | [] => Some 0%Z
  | c :: s1 =>
      if (c =? 101) || (c =? 69) then
        let '(neg, s2) := split_sign s1 in
        let '(ds, s3) := span ascii_digit s2 in
        match ds, s3 with
        | _ :: _, [] => Some (cond_Zopp neg (Z.of_N (decimal_value ds)))
        | _, _ => None
        end
      else None
  end.

Definition parse_float (s : str) : option float :=
  let '(neg, s1) := split_sign s in
  let name := map lower s1 in
  if str_eqb name (txt "inf") || str_eqb name (txt "infinity") then Some (S754_infinity neg)
  else if str_eqb name (txt "nan") then Some S754_nan
  else
    let '(ip, s2) := span ascii_digit s1 in
    let '(fp, s3) := match s2 with
                     | 46 :: r => span ascii_digit r
                     | _ => ([], s2)
                     end in
    match ip ++ fp with
    | [] => None
    | ds =>
        match parse_exponent s3 with
        | Some e => Some (float_of_decimal neg (decimal_value ds) (e - Z.of_nat (length fp)))
        | None => None
        end
    end.

(** [float(v)] for a [str]; [None] stands for ValueError. *)
Definition py_float (v : str) : option float :=
  let s := rstrip (lstrip (transform v)) in
  if underscores_ok 0 s then parse_float (drop_underscores s) else None.

(** In an integer numeral no underscore leads, trails or follows another. *)
Fixpoint int_underscores_ok (prev : N) (s : str) : bool :=
  match s with
  | [] => negb (prev =? 95)
  | c :: s' => negb ((c =? 95) && (prev =? 95)) && int_underscores_ok c s'
  end.

(** [int(v)] for a [str], base ten; [None] stands for ValueError.  (The
    interpreter's configurable limit on the number of digits is left out.) *)
Definition py_int (v : str) : option Z :=
  let '(neg, s1) := split_sign (lstrip (transform v)) in
  match s1 with
  | 95 :: _ => None
  | _ =>
      let '(body, s2) := span (fun c => ascii_digit c || (c =? 95)) s1 in
      match drop_underscores body, lstrip s2 with
      | (_ :: _) as ds, [] =>
          if int_underscores_ok 0 body
          then Some (cond_Zopp neg (Z.of_N (decimal_value ds)))
          else None
      | _, _ => None
      end
  end.

End Runtime.

(** ** Exceptions, state and the monad of the driver *)

Inductive exn :=
| SerialException
| ValueError
| AttributeError
| UnicodeEncodeError
| UnicodeDecodeError
| OtherError (name : string).

Inductive result (A : Type) :=
| Ok (a : A)
| Raise (e : exn).

Arguments Ok {A} a.
Arguments Raise {A} e.

(** The dictionary [{'Command': .., 'ErrCode': .., 'Value': ..}]: it always
    has exactly these three keys. *)
Record response := {
  Command : str;
  ErrCode : str;
  Value : str
}.

(** The second argument of [req_resp]: the empty text by default, a channel
    number in the per-channel accessors. *)
Inductive nbr_arg :=
| NbrStr (s : str)
| NbrInt (z : Z).

(** What the serial line does during one call of [req_resp]: whether
    [ser.open()] (tried only while the port is closed) and [ser.write(..)]
    raise, and what [ser.readline()] raises or returns; a read that times out
    returns the bytes received so far, possibly none. *)
Record exchange := {
  on_open : option exn;
  on_write : option exn;
  on_readline : exn + bytes
}.

(** A line on which nothing goes wrong and nothing arrives. *)
Definition silent : exchange :=
  {| on_open := None; on_write := None; on_readline := inr [] |}.

(** [ser.readline()] returns at a line feed or when the read timeout of two
    seconds expires: bytes that do not end in a line feed are what a read
    that timed out returns. *)
Definition timed_out (b : bytes) : bool :=
  match last b with
  | Some x => negb (Byte.eqb x x0a)
  | None => true
  end.

(** The serial port: whether it is open, what the line will do in the calls
    to come (a silent line once the list is used up), and a record of the
    calls of [req_resp] and of the byte strings handed to [ser.write]. *)
Record port := {
  is_open : bool;
  line : list exchange;
  calls : list (str * nbr_arg);
  written : list bytes
}.

(** What [kust_debug] prints. *)
Inductive debug_item :=
| DebugResp (r : response)
| DebugText (s : str)
| DebugArgs (e : exn).

(** An instance of [Kust.SerialCommunication]; its [ser] is the port of the
    state and its pattern is [pattern_inc_value]. *)
Inductive SerialCommunication :=
| SerialCommunication_on (device : str).

(** The state a [Kust] object runs in: its attribute [comm], the serial
    port, what the constructor of [serial.Serial] does for each device
    ([None]: the port is opened), and standard output. *)
Record state := {
  comm : option SerialCommunication;
  ser : port;
  serial_Serial : str -> option exn;
  stdout : list debug_item
}.

Definition set_comm (c : option SerialCommunication) (w : state) : state :=
  {| comm := c; ser := ser w; serial_Serial := serial_Serial w; stdout := stdout w |}.

Definition set_ser (p : port) (w : state) : state :=
  {| comm := comm w; ser := p; serial_Serial := serial_Serial w; stdout := stdout w |}.

Definition set_stdout (o : list debug_item) (w : state) : state :=
  {| comm := comm w; ser := ser w; serial_Serial := serial_Serial w; stdout := o |}.

(** A computation returns a value or raises, and leaves a state. *)
Definition M (A : Type) : Type := state -> result A * state.

Definition ret {A : Type} (a : A) : M A := fun w => (Ok a, w).

Definition raise {A : Type} (e : exn) : M A := fun w => (Raise e, w).

Definition bind {A B : Type} (c : M A) (k : A -> M B) : M B :=
  fun w =>
    match c w with
    | (Ok a, w') => k a w'
    | (Raise e, w') => (Raise e, w')
    end.

(** [try: body except <catches>: handler] *)
Definition try_except {A : Type} (body : M A) (catches : exn -> bool)
    (handler : exn -> M A) : M A :=
  fun w =>
    match body w with
    | (Ok a, w') => (Ok a, w')
    | (Raise e, w') => if catches e then handler e w' else (Raise e, w')
    end.

Notation "'let*' x ':=' c 'in' k" := (bind c (fun x => k))
  (at level 10, x name, c at level 100, k at level 200).
Notation "c ';;' k" := (bind c (fun _ => k))
  (at level 100, k at level 200, right associativity).

(** A bare [except:] catches everything. *)
Definition anything (e : exn) : bool := true.

Definition is_SerialException (e : exn) : bool :=
  match e with SerialException => true | _ => false end.

Definition option_raise {A : Type} (o : option A) (e : exn) : M A :=
  match o with Some a => ret a | None => raise e end.

(** Set to True for debug messages to console. *)
Definition DEBUG_KUST : bool := true.

(** ** class Kust.SerialCommunication *)
Module SerialCommunication.
Section Methods.

Context {U : unicode_db}.

(** The pattern compiled in [__init__], its parts set apart by spaces:
      IB  (\w{2})  er  (\d{2})  \w*  \s?  \+?  ( \d{5} | .* ) *)
Definition pattern_inc_value : regex :=
  Cat (lit "IB")
 (Cat (Grp 1 (Rep 2 (Atom Word)))
 (Cat (lit "er")
 (Cat (Grp 2 (Rep 2 (Atom Digit)))
 (Cat (Star Word)
 (Cat (Opt (Atom Space))
 (Cat (Opt (Atom (Lit 43)))
      (Grp 3 (Alt (Rep 5 (Atom Digit)) (Star Dot))))))))).

(** [serial.Serial(port = device, ...)] opens the port or raises; the
    pattern is compiled after it. *)
Definition __init__ (device : str) : M SerialCommunication :=
  fun w =>
    match serial_Serial w device with
    | Some e => (Raise e, w)
    | None =>
        let p := ser w in
        (Ok (SerialCommunication_on device),
         set_ser {| is_open := true; line := line p; calls := calls p;
                    written := written p |} w)
    end.

Definition ser_isOpen : M bool := fun w => (Ok (is_open (ser w)), w).

Definition ser_open (ex : exchange) : M unit :=
  fun w =>
    match on_open ex with
    | Some e => (Raise e, w)
    | None =>
        let p := ser w in
        (Ok tt, set_ser {| is_open := true; line := line p; calls := calls p;
                           written := written p |} w)
    end.

Definition ser_write (ex : exchange) (b : bytes) : M unit :=
  fun w =>
    let p := ser w in
    let w' := set_ser {| is_open := is_open p; line := line p; calls := calls p;
                         written := written p ++ [b] |} w in
    match on_write ex with
    | Some e => (Raise e, w')
    | None => (Ok tt, w')
    end.

Definition ser_readline (ex : exchange) : M bytes :=
  match on_readline ex with
  | inl e => raise e
  | inr b => ret b
  end.

(** Entering [req_resp]: the call is recorded and the line's next behaviour
    is taken. *)
Definition next_exchange (req : str) (nbr : nbr_arg) : M exchange :=
  fun w =>
    let p := ser w in
    (Ok (hd silent (line p)),
     set_ser {| is_open := is_open p; line := tl (line p);
                calls := calls p ++ [(req, nbr)]; written := written p |} w).

(** Open the serial port if not already. *)
Definition open_port (ex : exchange) : M unit :=
  let* o := ser_isOpen in
  if negb o then ser_open ex else ret tt.

Definition sentinel : response := {| Command := []; ErrCode := []; Value := [] |}.

(** Converts a string response into a dictionary. *)
Definition parse_response (resp : str) : response :=
  match re_match pattern_inc_value resp with
  | Some parsed =>
      {| Command := group parsed 1; ErrCode := group parsed 2; Value := group parsed 3 |}
  | None => sentinel
  end.

Definition format_field (nbr : nbr_arg) : str :=
  match nbr with
  | NbrStr s => s
  | NbrInt z => str_of_int z
  end.

(** The text of a request: [req], [nbr], carriage return, line feed. *)
Definition request_text (req : str) (nbr : nbr_arg) : str :=
  req ++ format_field nbr ++ [CR; LF].

(** Send a request via serial port, wait for the response. *)
Definition req_resp (req : str) (nbr : nbr_arg) : M response :=
  let* ex := next_exchange req nbr in
  try_except
    (open_port ex ;;
     let* byte_str := option_raise (utf8_encode (request_text req nbr)) UnicodeEncodeError in
     ser_write ex byte_str ;;
     let* b := ser_readline ex in
     let* resp := option_raise (utf8_decode b) UnicodeDecodeError in
     ret (parse_response resp))
    anything
    (fun _ => ret sentinel).

(** Checks whether the interface box is available. *)
Definition is_raedy : M bool :=
  let* resp := req_resp (txt "IBRF") (NbrStr []) in
  if str_eqb (Command resp) (txt "RF") (* Intentionally no check for error codes *)
  then ret true
  else ret false.

End Methods.
End SerialCommunication.

(** ** class Kust (Kommunikation & Steuerung) *)

(** What [get_oxigen_sensor] returns: the empty list or a float. *)
Inductive list_or_float :=
| EmptyList
| Float (x : float).

Module Kust.
Section Methods.

Context {U : unicode_db}.

(** Print a debug string to stdout if globally enabled.  (Standard output
    is taken to accept whatever is printed.) *)
Definition kust_debug (d : debug_item) : M unit :=
  fun w =>
    if DEBUG_KUST then (Ok tt, set_stdout (stdout w ++ [d]) w) else (Ok tt, w).

Definition get_comm : M (option SerialCommunication) := fun w => (Ok (comm w), w).

Definition assign_comm (c : SerialCommunication) : M unit :=
  fun w => (Ok tt, set_comm (Some c) w).

(** [self.comm.req_resp]: [None] has no such attribute. *)
Definition self_comm : M SerialCommunication :=
  let* c := get_comm in option_raise c AttributeError.

(** Connect to Kust; returns True if successful. *)
Definition connect (device : str) : M bool :=
  try_except
    (let* c := SerialCommunication.__init__ device in
     assign_comm c ;;
     ret true)
    is_SerialException
    (fun e => kust_debug (DebugArgs e) ;; ret false).

(** Check if the response contains the correct command and the error code 00. *)
Definition check_response (resp : response) (cmd : str) : M bool :=
  if negb (str_eqb (Command resp) cmd) || negb (str_eqb (ErrCode resp) (txt "00"))
  then kust_debug (DebugResp resp) ;; ret false
  else ret true.

(** Checks whether the interface box is available. *)
Definition is_raedy : M bool :=
  let* c := get_comm in
  match c with
  | None => kust_debug (DebugText (txt "Not connected")) ;; ret false
  | Some _ => SerialCommunication.is_raedy
  end.

(** Return version string, empty if no communication. *)
Definition get_firmware_version : M str :=
  self_comm ;;
  let* resp := SerialCommunication.req_resp (txt "IBRF") (NbrStr []) in
  let* ok := check_response resp (txt "RF") in
  if negb ok then ret []
  else ret (Value resp).

(** The loop of [get_temperatures] over the indices still to come. *)
Fixpoint temperatures_loop (range : list nat) (t : list (option float))
    : M (list (option float)) :=
  match range with
  | [] => ret t
  | i :: range' =>
      self_comm ;;
      let* resp := SerialCommunication.req_resp (txt "IBRT") (NbrInt (Z.of_nat i + 1)) in
      let* ok := check_response resp (txt "RT") in
      if negb ok then ret []
      else
        let* x := option_raise (py_float (Value resp)) ValueError in
        temperatures_loop range' (<[i := Some (truediv x 10)]> t)
  end.

(** Read all 4 temperature sensors. *)
Definition get_temperatures : M (list (option float)) :=
  temperatures_loop (seq 0 4) (replicate 4 None).

(** The loop of [get_rotational_frequency]. *)
Fixpoint rotational_loop (range : list nat) (s : list (option Z))
    : M (list (option Z)) :=
  match range with
  | [] => ret s
  | i :: range' =>
      self_comm ;;
      let* resp := SerialCommunication.req_resp (txt "IBRR") (NbrInt (Z.of_nat i + 1)) in
      let* ok := check_response resp (txt "RR") in
      if negb ok then ret []
      else
        let* n := option_raise (py_int (Value resp)) ValueError in
        rotational_loop range' (<[i := Some n]> s)
  end.

(** Read all 6 rotational frequencies. *)
Definition get_rotational_frequency : M (list (option Z)) :=
  rotational_loop (seq 0 6) (replicate 6 None).

(** Read current of the oxigen sensor. *)
Definition get_oxigen_sensor : M list_or_float :=
  self_comm ;;
  let* resp := SerialCommunication.req_resp (txt "IBRI") (NbrStr []) in
  let* ok := check_response resp (txt "RI") in
  if negb ok then ret EmptyList
  else
    let* x := option_raise (py_float (Value resp)) ValueError in
    ret (Float (truediv x 1000)).

(** Reset pending errors. *)
Definition reset_errors : M unit :=
  self_comm ;;
  let* resp := SerialCommunication.req_resp (txt "IBEI") (NbrStr []) in
  check_response resp (txt "EI") ;;
  ret tt.

End Methods.
End Kust.

(** ** Worlds to run the driver in *)

(** A freshly made [Kust] object: [comm] is the class attribute [None]. *)
Definition fresh (ctor : str -> option exn) (l : list exchange) : state :=
  {| comm := None;
     ser := {| is_open := false; line := l; calls := []; written := [] |};
     serial_Serial := ctor;
     stdout := [] |}.

(** A driver after a successful [connect]. *)
Definition connected (l : list exchange) : state :=
  {| comm := Some (SerialCommunication_on (txt "COM1"));
     ser := {| is_open := true; line := l; calls := []; written := [] |};
     serial_Serial := fun _ => None;
     stdout := [] |}.

(** The line delivers the bytes [b] in answer to a request. *)
Definition answers (b : bytes) : exchange :=
  {| on_open := None; on_write := None; on_readline := inr b |}.

(** The line delivers an ASCII response and its line end. *)
Definition says (s : string) : exchange := answers (raw s ++ [x0d; x0a]).

(** A sample of the character database for closed examples: the Arabic-Indic
    digits, the capital letters of Latin-1 from A-grave to O-diaeresis, and the
    no-break space.  The texts of the examples are ASCII, so that nothing
    depends on it. *)
Definition sample_db : unicode_db :=
  {| uni_decimal := fun c => if between 0x660 0x669 c then Some (c - 0x660) else None;
     uni_alnum := fun c => between 0xC0 0xD6 c;
     uni_space := fun c => c =? 0xA0 |}.

(** Four temperature channels that answer 21.5, 19.8, -1.2 and 0.0 degrees. *)
Definition four_readings : list exchange :=
  [says "IBRTer00+00215"; says "IBRTer00+00198"; says "IBRTer00-00012";
   says "IBRTer00+00000"].

(** The same with error code 07 on channel 3. *)
Definition third_invalid : list exchange :=
  [says "IBRTer00+00215"; says "IBRTer00+00198"; says "IBRTer07+00201";
   says "IBRTer00+00000"].

(** Four channels that answer with error code 00 and the digits of the value
    right after it, without a sign. *)
Definition unsigned_readings : list exchange :=
  [says "IBRTer0000215"; says "IBRTer0000198"; says "IBRTer0000201";
   says "IBRTer0000000"].

(** The same, but channel 3 reports error code 07. *)
Definition unsigned_third_invalid : list exchange :=
  [says "IBRTer0000215"; says "IBRTer0000198"; says "IBRTer0700201";
   says "IBRTer0000000"].

(** Six stirrers that answer 100, 250, 0, 1200, 99999 and 7 rpm. *)
Definition six_speeds : list exchange :=
  [says "IBRRer00+00100"; says "IBRRer00+00250"; says "IBRRer00+00000";
   says "IBRRer00+01200"; says "IBRRer00+99999"; says "IBRRer00+00007"].

(** The same with a temperature response on channel 5. *)
Definition fifth_invalid : list exchange :=
  [says "IBRRer00+00100"; says "IBRRer00+00250"; says "IBRRer00+00000";
   says "IBRRer00+01200"; says "IBRTer00+00215"; says "IBRRer00+00007"].

(** Six stirrers that answer without a sign. *)
Definition unsigned_speeds : list exchange :=
  [says "IBRRer0000100"; says "IBRRer0000250"; says "IBRRer0000000";
   says "IBRRer0001200"; says "IBRRer0099999"; says "IBRRer0000007"].

(** Four temperature channels, the second of which answers 21.5 degrees. *)
Definition second_is_21_5 : list exchange :=
  [says "IBRTer00+00198"; says "IBRTer00+00215"; says "IBRTer00+00201";
   says "IBRTer00+00000"].

(** A constructor of [serial.Serial] that finds no port at all. *)
Definition no_port : str -> option exn := fun _ => Some SerialException.

(** A constructor of [serial.Serial] that opens every port, but lets the
    ValueError through with which the operating system's [open] refuses a
    name that holds a NUL character. *)
Definition nul_rejecting : str -> option exn :=
  fun device => if existsb (N.eqb 0) device then Some ValueError else None.

(** ** Notions the statements are written with *)

Section Notions.

Context {U : unicode_db}.

(** The response grammar, as far as it constrains a line: the two-character
    prefix of the box, two word characters, the letters [er] and two decimal
    digits; what follows (filler, whitespace, sign, value) is free. *)
Definition has_response_prefix (s : str) : bool :=
  match s with
  | a :: b :: c1 :: c2 :: e :: r :: d1 :: d2 :: _ =>
      (a =? 73) && (b =? 66) && is_word c1 && is_word c2 &&
      (e =? 101) && (r =? 114) && is_decimal d1 && is_decimal d2
  | _ => false
  end.

(** A letter, as the mnemonics of the protocol have them: A to Z and a to z. *)
Definition is_letter (c : N) : bool := ascii_alpha c.

(** The value of the specification's grammar: a numeric field of five digits
    or a free-form trailing string. *)
Inductive value_field : str -> Prop :=
| numeric_field (v : str) :
    length v = 5%nat -> forallb is_decimal v = true -> value_field v
| trailing_string (v : str) : value_field v.

(** The response grammar in the words of the specification: the box prefix,
    exactly two letters (the command), the literal [er], exactly two digits
    (the error code), then zero or more arbitrary characters, optional
    whitespace, an optional plus sign, and the value.  The line is matched as
    a whole. *)
Definition response_grammar (s : str) : Prop :=
  exists (c1 c2 d1 d2 : N) (filler ws sign value : str),
    s = txt "IB" ++ [c1; c2] ++ txt "er" ++ [d1; d2] ++ filler ++ ws ++ sign ++ value /\
    is_letter c1 = true /\ is_letter c2 = true /\
    is_decimal d1 = true /\ is_decimal d2 = true /\
    (ws = [] \/ exists c, ws = [c] /\ is_space c = true) /\
    (sign = [] \/ sign = [43]) /\
    value_field value.

(** Patterns without capturing groups. *)
Fixpoint group_free (r : regex) : Prop :=
  match r with
  | Eps | Atom _ | Star _ => True
  | Cat r1 r2 | Alt r1 r2 => group_free r1 /\ group_free r2
  | Opt r' => group_free r'
  | Grp _ _ => False
  end.

(** The part of [pattern_inc_value] after the error code: filler, optional
    whitespace, optional sign and the value group. *)
Definition filler_and_value : regex :=
  Cat (Star Word)
 (Cat (Opt (Atom Space))
 (Cat (Opt (Atom (Lit 43)))
      (Grp 3 (Alt (Rep 5 (Atom Digit)) (Star Dot))))).

(** The part before it, with the rest [r] of the pattern. *)
Definition prefix_then (r : regex) : regex :=
  Cat (lit "IB")
 (Cat (Grp 1 (Rep 2 (Atom Word)))
 (Cat (lit "er")
 (Cat (Grp 2 (Rep 2 (Atom Digit))) r))).

(** The end of a pattern: the match is its groups. *)
Definition accept : str -> groups -> option groups := fun _ g => Some g.

(** The validation rule: the command is the expected one and the error code
    is the text 00. *)
Definition valid (cmd : str) (resp : response) : Prop :=
  Command resp = cmd /\ ErrCode resp = txt "00".

(** The port after one call of [req_resp]. *)
Definition exchange_port (call : str * nbr_arg) (p : port) : port :=
  let ex := hd silent (line p) in
  let opened := is_open p || match on_open ex with None => true | Some _ => false end in
  {| is_open := opened;
     line := tl (line p);
     calls := calls p ++ [call];
     written :=
       match utf8_encode (SerialCommunication.request_text (fst call) (snd call)) with
       | Some b => if opened then written p ++ [b] else written p
       | None => written p
       end |}.

(** The response one call of [req_resp] hands back: the parsed line when the
    port is or gets open, the request is written and a line of well-formed
    UTF-8 is read; the sentinel in every other case. *)
Definition reply (call : str * nbr_arg) (p : port) : response :=
  let ex := hd silent (line p) in
  if is_open (exchange_port call p) then
    match utf8_encode (SerialCommunication.request_text (fst call) (snd call)),
          on_write ex, on_readline ex with
    | Some _, None, inr b =>
        match utf8_decode b with
        | Some s => SerialCommunication.parse_response s
        | None => SerialCommunication.sentinel
        end
    | _, _, _ => SerialCommunication.sentinel
    end
  else SerialCommunication.sentinel.

(** The port after a series of calls, and the responses they hand back. *)
Definition run_port (cs : list (str * nbr_arg)) (p : port) : port :=
  fold_left (fun q c => exchange_port c q) cs p.

Fixpoint replies (cs : list (str * nbr_arg)) (p : port) : list response :=
  match cs with
  | [] => []
  | c :: cs' => reply c p :: replies cs' (exchange_port c p)
  end.

(** The calls of a loop over the indices [range]: index [i] asks for
    channel [i + 1]. *)
Definition calls_of (req : str) (range : list nat) : list (str * nbr_arg) :=
  map (fun i => (req, NbrInt (Z.of_nat i + 1))) range.

(** The calls of an accessor that reads channels 1 to [n]. *)
Definition channel_calls (req : str) (n : nat) : list (str * nbr_arg) :=
  calls_of req (seq 0 n).

(** The rule as a test. *)
Definition validb (cmd : str) (resp : response) : bool :=
  str_eqb (Command resp) cmd && str_eqb (ErrCode resp) (txt "00").

(** The shape the two channel loops share: request [req] for each index,
    give up on the first response that is not valid for [cmd], convert the
    value with [conv] and store it at the index. *)
Fixpoint channel_loop {A : Type} (req cmd : str) (conv : str -> option A)
    (range : list nat) (t : list (option A)) : M (list (option A)) :=
  match range with
  | [] => ret t
  | i :: range' =>
      Kust.self_comm ;;
      let* resp := SerialCommunication.req_resp req (NbrInt (Z.of_nat i + 1)) in
      let* ok := Kust.check_response resp cmd in
      if negb ok then ret []
      else
        let* y := option_raise (conv (Value resp)) ValueError in
        channel_loop req cmd conv range' (<[i := Some y]> t)
  end.

(** The list after the stores of a loop that ran to its end. *)
Definition fill {A : Type} (range : list nat) (ys : list A) (t : list (option A))
    : list (option A) :=
  fold_left (fun t' iy => <[fst iy := Some (snd iy)]> t') (combine range ys) t.

(** The conversion of [get_temperatures]. *)
Definition celsius (v : str) : option float :=
  match py_float v with Some x => Some (truediv x 10) | None => None end.

End Notions.

(** A driver whose port is closed and cannot be opened. *)
Definition unplugged : state :=
  {| comm := Some (SerialCommunication_on (txt "COM1"));
     ser := {| is_open := false;
               line := [{| on_open := Some SerialException; on_write := None;
                           on_readline := inr [] |}];
               calls := []; written := [] |};
     serial_Serial := fun _ => None;
     stdout := [] |}.

(** ** Notions for the properties beyond the claims *)

Section Deliveries.

Context {U : unicode_db}.

(** During the call [call] the port is or gets open, the request is written
    and the line delivers bytes that decode to the text [s]. *)
Definition reads (call : str * nbr_arg) (s : str) (p : port) : Prop :=
  let ex := hd silent (line p) in
  (is_open p = true \/ on_open ex = None) /\
  utf8_encode (SerialCommunication.request_text (fst call) (snd call)) <> None /\
  on_write ex = None /\
  exists b : bytes, on_readline ex = inr b /\ utf8_decode b = Some s.

(** The same for a series of calls and the texts they read. *)
Fixpoint delivers (cs : list (str * nbr_arg)) (ss : list str) (p : port) : Prop :=
  match cs, ss with
  | [], [] => True
  | c :: cs', s :: ss' => reads c s p /\ delivers cs' ss' (exchange_port c p)
  | _, _ => False
  end.

(** A response line of the box: prefix, command, error code 00, plus sign,
    digits, carriage return and line feed. *)
Definition ok_line (cmd ds : str) : str :=
  txt "IB" ++ cmd ++ txt "er00+" ++ ds ++ [CR; LF].

(** The same with a sign: plus, or minus if [neg]. *)
Definition signed_line (cmd : str) (neg : bool) (ds : str) : str :=
  txt "IB" ++ cmd ++ txt "er00" ++ [if neg then 45 else 43] ++ ds ++ [CR; LF].

(** The number a text of ASCII digits denotes. *)
Definition number (ds : str) : Z := Z.of_N (decimal_value ds).

(** The float a sign and a text of ASCII digits denote; minus and zeros
    give the negative zero. *)
Definition signed_float (neg : bool) (ds : str) : float :=
  if neg then SFopp (float_of_Z (number ds)) else float_of_Z (number ds).

(** Five ASCII digits. *)
Definition five_digits (ds : str) : Prop :=
  length ds = 5%nat /\ forallb ascii_digit ds = true.

(** A text that neither a plus sign nor a decimal digit opens. *)
Definition head_free (v : str) : Prop :=
  match v with
  | c :: _ => is_decimal c = false /\ (c =? 43) = false
  | [] => True
  end.

(** A text without line feeds. *)
Definition one_line (v : str) : Prop := forallb (fun c => negb (c =? LF)) v = true.

(** The exchange that is next on the port fails: opening the closed port or
    writing raises, or reading raises, returns bytes that are not UTF-8 or
    returns nothing before the timeout. *)
Definition transport_fails (p : port) : Prop :=
  let ex := hd silent (line p) in
  (is_open p = false /\ on_open ex <> None) \/
  on_write ex <> None \/
  (exists e, on_readline ex = inl e) \/
  (exists b, on_readline ex = inr b /\ utf8_decode b = None) \/
  on_readline ex = inr [].

End Deliveries.

(** The equations that replace a call by its result. *)
Create Rewrite HintDb run.

(** One step of a computation in [M]: the first [bind] is opened and the
    call at its head is replaced by its result. *)
Ltac step :=
  unfold bind at 1; autorewrite with run;
  repeat match goal with H : comm _ = Some _ |- _ => rewrite H end.

(** * Properties *)

(** ** Text *)

Lemma str_eqb_eq (a b : str) : str_eqb a b = true <-> a = b.
Proof.
  revert b; induction a as [|x a IH]; intros [|y b]; simpl; split; try easy.
  - intros [Hx Hab]%andb_true_iff. apply N.eqb_eq in Hx. apply IH in Hab. congruence.
  - intros [= -> ->]. rewrite N.eqb_refl. simpl. now apply IH.
Qed.

Lemma str_eqb_refl (a : str) : str_eqb a a = true.
Proof. now apply str_eqb_eq. Qed.

Lemma str_eqb_neq (a b : str) : str_eqb a b = false <-> a <> b.
Proof.
  destruct (str_eqb a b) eqn:E; split; try easy.
  - apply str_eqb_eq in E. easy.
  - intros _ H. apply str_eqb_eq in H. congruence.
Qed.

Lemma consumed_app (a s : str) : consumed (a ++ s) s = a.
Proof.
  unfold consumed. rewrite length_app.
  replace (length a + length s - length s)%nat with (length a) by lia.
  apply take_app_length.
Qed.

Lemma consumed_nil (s : str) : consumed s s = [].
Proof. apply (consumed_app [] s). Qed.

(** ** The matcher *)

Section Matcher.

Context {U : unicode_db}.

(** A decimal digit is a word character. *)
Lemma is_decimal_word (c : N) : is_decimal c = true -> is_word c = true.
Proof.
  unfold is_word, is_alnum, is_decimal, to_decimal.
  destruct (c <? 128).
  - destruct (ascii_digit c); [intros _|easy]. now rewrite orb_true_r.
  - intros ->. now rewrite orb_true_r.
Qed.

(** A greedy repetition ends by handing some suffix to the rest of the
    pattern. *)
Lemma star_suffix {A : Type} (p : N -> bool) (s : str) (k : str -> option A) :
  exists s', star p s k = k s'.
Proof.
  induction s as [|c s IH]; simpl.
  - now exists [].
  - destruct (p c); [|now exists (c :: s)].
    destruct (star p s k) eqn:E.
    + destruct IH as [s' IH]. exists s'. congruence.
    + now exists (c :: s).
Qed.

(** It takes all it can when the rest of the pattern accepts what is left. *)
Lemma star_greedy {A : Type} (p : N -> bool) (ds t : str) (k : str -> option A) (m : A) :
  forallb p ds = true -> star p t k = Some m -> star p (ds ++ t) k = Some m.
Proof.
  intros Hds Ht. induction ds as [|d ds IH]; simpl in *; [easy|].
  apply andb_true_iff in Hds as [-> Hds]. now rewrite IH.
Qed.

(** A pattern without groups fails or hands the groups on unchanged. *)
Lemma run_group_free (r : regex) :
  group_free r ->
  forall s g k, run r s g k = None \/ exists s', run r s g k = k s' g.
Proof.
  induction r as [|a|r1 IH1 r2 IH2|r1 IH1 r2 IH2|a|r IH|i r IH]; simpl; intros F s g k.
  - right. now exists s.
  - destruct s as [|c s]; [now left|]. destruct (atom_ok a c); [right; now exists s|now left].
  - destruct F as [F1 F2].
    destruct (IH1 F1 s g (fun s' g' => run r2 s' g' k)) as [->|[s' ->]]; [now left|].
    apply (IH2 F2).
  - destruct F as [F1 F2].
    destruct (run r1 s g k) eqn:E.
    + destruct (IH1 F1 s g k) as [H|[s' H]]; [congruence|]. right. exists s'. congruence.
    + apply (IH2 F2).
  - right. apply (star_suffix (atom_ok a) s (fun s' => k s' g)).
  - destruct (run r s g k) eqn:E.
    + destruct (IH F s g k) as [H|[s' H]]; [congruence|]. right. exists s'. congruence.
    + right. now exists s.
  - easy.
Qed.

Lemma group_free_Rep (n : nat) (a : atom) : group_free (Rep n (Atom a)).
Proof. induction n; simpl; auto. Qed.

End Matcher.

(** ** parse_response *)

Section Parsing.

Context {U : unicode_db}.

Lemma pattern_split : SerialCommunication.pattern_inc_value = prefix_then filler_and_value.
Proof. reflexivity. Qed.

(** The fixed part of the pattern reads eight characters and sets the first
    two groups. *)
Lemma run_prefix (r : regex) (s : str) (k : str -> groups -> option groups) :
  run (prefix_then r) s no_groups k =
  match s with
  | a :: b :: c1 :: c2 :: e :: r' :: d1 :: d2 :: rest =>
      if has_response_prefix s
      then run r rest (set_group 2 [d1; d2] (set_group 1 [c1; c2] no_groups)) k
      else None
  | _ => None
  end.
Proof.
  unfold prefix_then.
  change (lit "IB") with (Cat (Atom (Lit 73)) (Cat (Atom (Lit 66)) Eps)).
  change (lit "er") with (Cat (Atom (Lit 101)) (Cat (Atom (Lit 114)) Eps)).
  destruct s as [|a [|b [|c1 [|c2 [|e [|r' [|d1 [|d2 rest]]]]]]]];
    cbn [run Rep atom_ok has_response_prefix];
    repeat match goal with
           | |- context [if ?b then _ else _] => destruct b eqn:?; cbn [andb]
           end; try reflexivity.
  pose proof (consumed_app [d1; d2] rest) as H2.
  pose proof (consumed_app [c1; c2] (e :: r' :: d1 :: d2 :: rest)) as H1.
  simpl app in H1, H2. now rewrite H1, H2.
Qed.

Lemma run_Cat (r1 r2 : regex) (s : str) (g : groups) (k : str -> groups -> option groups) :
  run (Cat r1 r2) s g k = run r1 s g (fun s' g' => run r2 s' g' k).
Proof. reflexivity. Qed.

Lemma run_Star (a : atom) (s : str) (g : groups) (k : str -> groups -> option groups) :
  run (Star a) s g k = star (atom_ok a) s (fun s' => k s' g).
Proof. reflexivity. Qed.

(** An optional atom hands the text on with or without its first character. *)
Lemma run_opt_atom (P : option groups -> Prop) (a : atom) (s : str) (g : groups)
    (k : str -> groups -> option groups) :
  (forall s', P (k s' g)) -> P (run (Opt (Atom a)) s g k).
Proof.
  intros H. simpl. destruct s as [|c s]; [apply H|].
  destruct (atom_ok a c); [|apply H].
  destruct (k s g) eqn:E; [rewrite <- E|]; apply H.
Qed.

(** The value group always matches: its second branch takes any text. *)
Lemma run_value_group (s : str) (g : groups) :
  exists v, run (Grp 3 (Alt (Rep 5 (Atom Digit)) (Star Dot))) s g accept
            = Some (set_group 3 v g).
Proof.
  cbn [run].
  set (k := fun (s' : str) (g' : groups) => accept s' (set_group 3 (consumed s s') g')).
  destruct (run (Rep 5 (Atom Digit)) s g k) eqn:E.
  - destruct (run_group_free (Rep 5 (Atom Digit)) (group_free_Rep 5 Digit) s g k)
      as [H|[s' H]]; [congruence|].
    exists (consumed s s'). rewrite <- E, H. reflexivity.
  - destruct (star_suffix (atom_ok Dot) s (fun s' => k s' g)) as [s' Hs'].
    exists (consumed s s'). subst k. cbn beta in *. rewrite Hs'. reflexivity.
Qed.

(** Whatever follows the error code, the rest of the pattern matches it and
    sets the third group only. *)
Lemma run_filler_and_value (s : str) (g : groups) :
  exists v, run filler_and_value s g accept = Some (set_group 3 v g).
Proof.
  unfold filler_and_value. rewrite run_Cat, run_Star.
  match goal with
  | |- context [star ?p ?s ?k] => destruct (star_suffix p s k) as [s1 ->]
  end.
  rewrite run_Cat.
  apply (run_opt_atom (fun o => exists v, o = Some (set_group 3 v g))). intros s2.
  rewrite run_Cat.
  apply (run_opt_atom (fun o => exists v, o = Some (set_group 3 v g))). intros s3.
  apply run_value_group.
Qed.

(** A line with the prefix of the grammar parses to its command and error
    code and to some value. *)
Lemma parse_response_prefix (c1 c2 d1 d2 : N) (rest : str) :
  has_response_prefix (73 :: 66 :: c1 :: c2 :: 101 :: 114 :: d1 :: d2 :: rest) = true ->
  exists v,
    SerialCommunication.parse_response (73 :: 66 :: c1 :: c2 :: 101 :: 114 :: d1 :: d2 :: rest)
    = {| Command := [c1; c2]; ErrCode := [d1; d2]; Value := v |}.
Proof.
  intros Hp. unfold SerialCommunication.parse_response, re_match.
  rewrite pattern_split, run_prefix, Hp.
  destruct (run_filler_and_value rest (set_group 2 [d1; d2] (set_group 1 [c1; c2] no_groups)))
    as [v Hv].
  fold accept. rewrite Hv. now exists v.
Qed.

Lemma has_response_prefix_shape (s : str) :
  has_response_prefix s = true ->
  exists c1 c2 d1 d2 rest,
    s = 73 :: 66 :: c1 :: c2 :: 101 :: 114 :: d1 :: d2 :: rest /\
    is_word c1 = true /\ is_word c2 = true /\
    is_decimal d1 = true /\ is_decimal d2 = true.
Proof.
  destruct s as [|a [|b [|c1 [|c2 [|e [|r' [|d1 [|d2 rest]]]]]]]]; try easy.
  cbn [has_response_prefix]. rewrite !andb_true_iff.
  intros [[[[[[[->%N.eqb_eq ->%N.eqb_eq] ?] ?] ->%N.eqb_eq] ->%N.eqb_eq] ?] ?].
  now exists c1, c2, d1, d2, rest.
Qed.

(** A line without it parses to the sentinel. *)
Lemma parse_response_no_prefix (s : str) :
  has_response_prefix s = false ->
  SerialCommunication.parse_response s = SerialCommunication.sentinel.
Proof.
  intros Hp. unfold SerialCommunication.parse_response, re_match.
  rewrite pattern_split, run_prefix.
  destruct s as [|a [|b [|c1 [|c2 [|e [|r' [|d1 [|d2 rest]]]]]]]]; try reflexivity.
  now rewrite Hp.
Qed.

(** A letter is a word character. *)
Lemma is_letter_word (c : N) : is_letter c = true -> is_word c = true.
Proof.
  unfold is_letter, is_word, is_alnum. intros H. rewrite H.
  assert (Hc : (c <? 128) = true).
  { unfold ascii_alpha in H. apply N.ltb_lt.
    rewrite orb_true_iff, !andb_true_iff, !N.leb_le in H. lia. }
  now rewrite Hc.
Qed.

(** A line of the response grammar has the prefix. *)
Lemma response_grammar_prefix (s : str) :
  response_grammar s -> has_response_prefix s = true.
Proof.
  intros (c1 & c2 & d1 & d2 & f & ws & sg & v & -> & H1 & H2 & H3 & H4 & _).
  cbn. now rewrite (is_letter_word c1 H1), (is_letter_word c2 H2), H3, H4.
Qed.

(** A line with the prefix whose command is of letters is in the grammar:
    what follows the error code is a trailing string. *)
Lemma prefix_response_grammar (c1 c2 d1 d2 : N) (rest : str) :
  is_letter c1 = true -> is_letter c2 = true ->
  is_decimal d1 = true -> is_decimal d2 = true ->
  response_grammar (73 :: 66 :: c1 :: c2 :: 101 :: 114 :: d1 :: d2 :: rest).
Proof.
  intros H1 H2 H3 H4. exists c1, c2, d1, d2, [], [], [], rest.
  split; [reflexivity|]. split; [exact H1|]. split; [exact H2|].
  split; [exact H3|]. split; [exact H4|]. split; [now left|].
  split; [now left|]. apply trailing_string.
Qed.

(** The sentinel is what the lines without the prefix parse to, and only
    they. *)
Lemma parse_response_sentinel_iff (s : str) :
  has_response_prefix s = false <->
  SerialCommunication.parse_response s = SerialCommunication.sentinel.
Proof.
  split; [apply parse_response_no_prefix|].
  destruct (has_response_prefix s) eqn:Hp; [|reflexivity].
  destruct (has_response_prefix_shape s Hp) as (c1 & c2 & d1 & d2 & rest & -> & _).
  destruct (parse_response_prefix c1 c2 d1 d2 rest Hp) as [v ->]. discriminate.
Qed.

(** In every match all three groups take part. *)
Lemma match_groups_present (s : str) (m : groups) :
  re_match SerialCommunication.pattern_inc_value s = Some m ->
  exists c e v, m 1%nat = Some c /\ m 2%nat = Some e /\ m 3%nat = Some v.
Proof.
  unfold re_match. rewrite pattern_split, run_prefix.
  destruct s as [|a [|b [|c1 [|c2 [|e [|r' [|d1 [|d2 rest]]]]]]]]; try easy.
  destruct (has_response_prefix _); [|easy].
  destruct (run_filler_and_value rest (set_group 2 [d1; d2] (set_group 1 [c1; c2] no_groups)))
    as [v Hv].
  fold accept. rewrite Hv. intros [= <-]. now exists [c1; c2], [d1; d2], v.
Qed.

End Parsing.

Section Greedy.

Context {U : unicode_db}.

Lemma forallb_decimal_word (ds : str) :
  forallb is_decimal ds = true -> forallb (atom_ok Word) ds = true.
Proof.
  induction ds as [|d ds IH]; simpl; [easy|].
  intros [Hd Hds]%andb_true_iff. now rewrite (is_decimal_word d Hd), IH.
Qed.

(** Digits that follow the error code directly are taken by the filler: at
    the end of the line nothing is left for the value. *)
Lemma parse_response_digits_in_filler (c1 c2 d1 d2 : N) (ds eol : str) :
  is_word c1 = true -> is_word c2 = true ->
  is_decimal d1 = true -> is_decimal d2 = true ->
  forallb is_decimal ds = true ->
  eol = [] \/ eol = [LF] \/ eol = [CR; LF] ->
  SerialCommunication.parse_response
    (73 :: 66 :: c1 :: c2 :: 101 :: 114 :: d1 :: d2 :: ds ++ eol)
  = {| Command := [c1; c2]; ErrCode := [d1; d2]; Value := [] |}.
Proof.
  intros Hc1 Hc2 Hd1 Hd2 Hds Heol.
  unfold SerialCommunication.parse_response, re_match.
  rewrite pattern_split, run_prefix.
  cbn [has_response_prefix]. rewrite Hc1, Hc2, Hd1, Hd2. cbn [N.eqb Pos.eqb andb].
  unfold filler_and_value. rewrite run_Cat, run_Star.
  set (g := set_group 2 [d1; d2] (set_group 1 [c1; c2] no_groups)).
  erewrite (star_greedy _ ds eol _ (set_group 3 [] g)).
  - reflexivity.
  - now apply forallb_decimal_word.
  - destruct Heol as [->|[->| ->]]; reflexivity.
Qed.

End Greedy.

(** ** The runtime at work *)

Section Examples.

Context {U : unicode_db}.

(** A reading with a plus sign: the sign and the line end stay out of the
    value. *)
Example parse_temperature_line :
  SerialCommunication.parse_response (txt "IBRTer00+00215" ++ [CR; LF])
  = {| Command := txt "RT"; ErrCode := txt "00"; Value := txt "00215" |}.
Proof. reflexivity. Qed.

(** A reading with a minus sign, which the pattern does not know: the value
    is the free text up to the line feed, sign and carriage return included
    ([float] strips the latter). *)
Example parse_negative_line :
  SerialCommunication.parse_response (txt "IBRTer00-00012" ++ [CR; LF])
  = {| Command := txt "RT"; ErrCode := txt "00"; Value := txt "-00012" ++ [CR] |} /\
  py_float (txt "-00012" ++ [CR]) = Some (float_of_Z (-12)).
Proof. split; reflexivity. Qed.

(** A firmware line: free text as value, the carriage return included. *)
Example parse_firmware_line :
  SerialCommunication.parse_response (txt "IBRFer00 V1.2" ++ [CR; LF])
  = {| Command := txt "RF"; ErrCode := txt "00"; Value := txt "V1.2" ++ [CR] |}.
Proof. reflexivity. Qed.

(** Text after five digits is not part of the value. *)
Example parse_six_digits :
  SerialCommunication.parse_response (txt "IBRTer00+002157")
  = {| Command := txt "RT"; ErrCode := txt "00"; Value := txt "00215" |}.
Proof. reflexivity. Qed.

Example parse_short_line : SerialCommunication.parse_response (txt "IBRTer0")
  = SerialCommunication.sentinel.
Proof. reflexivity. Qed.

Example float_of_texts :
  py_float (txt "00215") = Some (float_of_Z 215) /\
  py_float (txt "-00012") = Some (float_of_Z (-12)) /\
  py_float (txt " 21.5 ") = Some (dyadic 43 (-1)) /\
  py_float (txt "1_000") = Some (float_of_Z 1000) /\
  py_float (txt "1e3") = Some (float_of_Z 1000) /\
  py_float (txt "0.1") = Some (S754_finite false 7205759403792794 (-56)) /\
  py_float (txt "-inf") = Some (S754_infinity true) /\
  py_float (txt "1e999") = Some (S754_infinity false) /\
  py_float [] = None /\
  py_float (txt "V1.2") = None /\
  py_float (txt "1__0") = None /\
  py_float (txt "0x10") = None.
Proof. repeat split; reflexivity. Qed.

Example int_of_texts :
  py_int (txt "00215") = Some 215%Z /\
  py_int (txt " -12 ") = Some (-12)%Z /\
  py_int (txt "1_000") = Some 1000%Z /\
  py_int [] = None /\
  py_int (txt "21.5") = None /\
  py_int (txt "1e3") = None /\
  py_int (txt "_1") = None.
Proof. repeat split; reflexivity. Qed.

Example utf8_of_texts :
  utf8_encode (txt "IBRF" ++ [CR; LF]) = Some (raw "IBRF" ++ [x0d; x0a]) /\
  utf8_encode [0x20AC] = Some [xe2; x82; xac] /\
  utf8_encode [0xD800] = None /\
  utf8_decode [xe2; x82; xac] = Some [0x20AC] /\
  utf8_decode [xff] = None /\
  utf8_decode [xc0; x80] = None /\
  utf8_decode [xe2; x82] = None.
Proof. repeat split; reflexivity. Qed.

Example request_texts :
  SerialCommunication.request_text (txt "IBRF") (NbrStr []) = txt "IBRF" ++ [CR; LF] /\
  SerialCommunication.request_text (txt "IBRR") (NbrInt 6) = txt "IBRR6" ++ [CR; LF].
Proof. split; reflexivity. Qed.

End Examples.

(** ** SerialCommunication.req_resp *)

Section Exchange.

Context {U : unicode_db}.

(** One call of [req_resp] returns the reply of the line and leaves the port
    as [exchange_port] says; it does not raise. *)
Lemma req_resp_run (req : str) (nbr : nbr_arg) (w : state) :
  SerialCommunication.req_resp req nbr w
  = (Ok (reply (req, nbr) (ser w)), set_ser (exchange_port (req, nbr) (ser w)) w).
Proof.
  destruct w as [c [o l cs wr] ctor out].
  unfold SerialCommunication.req_resp, SerialCommunication.next_exchange,
    SerialCommunication.open_port, SerialCommunication.ser_isOpen,
    SerialCommunication.ser_open, SerialCommunication.ser_write,
    SerialCommunication.ser_readline, try_except, bind, ret, raise, option_raise,
    reply, exchange_port, set_ser, anything.
  cbn [ser is_open line calls written comm serial_Serial stdout fst snd].
  destruct o; cbn [negb orb];
    destruct (on_open (hd silent l)); cbn [ser is_open line calls written];
    destruct (utf8_encode (SerialCommunication.request_text req nbr));
    cbn [ser is_open line calls written];
    destruct (on_write (hd silent l)); destruct (on_readline (hd silent l)) as [?|rx];
    try destruct (utf8_decode rx); reflexivity.
Qed.

(** The cases of [reply]. *)
Lemma reply_port_stays_closed (call : str * nbr_arg) (p : port) :
  is_open p = false -> on_open (hd silent (line p)) <> None ->
  reply call p = SerialCommunication.sentinel.
Proof.
  intros Ho Hn. unfold reply, exchange_port. cbn [is_open]. rewrite Ho.
  now destruct (on_open (hd silent (line p))).
Qed.

Lemma reply_not_encodable (call : str * nbr_arg) (p : port) :
  utf8_encode (SerialCommunication.request_text (fst call) (snd call)) = None ->
  reply call p = SerialCommunication.sentinel.
Proof.
  intros He. unfold reply. rewrite He. now destruct (is_open (exchange_port call p)).
Qed.

Lemma reply_write_raises (call : str * nbr_arg) (p : port) :
  on_write (hd silent (line p)) <> None -> reply call p = SerialCommunication.sentinel.
Proof.
  intros Hw. unfold reply.
  destruct (is_open (exchange_port call p)),
    (utf8_encode (SerialCommunication.request_text (fst call) (snd call))),
    (on_write (hd silent (line p))); easy.
Qed.

Lemma reply_readline_raises (call : str * nbr_arg) (p : port) (e : exn) :
  on_readline (hd silent (line p)) = inl e -> reply call p = SerialCommunication.sentinel.
Proof.
  intros Hr. unfold reply. rewrite Hr.
  destruct (is_open (exchange_port call p)),
    (utf8_encode (SerialCommunication.request_text (fst call) (snd call))),
    (on_write (hd silent (line p))); reflexivity.
Qed.

Lemma reply_not_decodable (call : str * nbr_arg) (p : port) (b : bytes) :
  on_readline (hd silent (line p)) = inr b -> utf8_decode b = None ->
  reply call p = SerialCommunication.sentinel.
Proof.
  intros Hr Hd. unfold reply. rewrite Hr, Hd.
  destruct (is_open (exchange_port call p)),
    (utf8_encode (SerialCommunication.request_text (fst call) (snd call))),
    (on_write (hd silent (line p))); reflexivity.
Qed.

Lemma reply_malformed (call : str * nbr_arg) (p : port) (b : bytes) (s : str) :
  on_readline (hd silent (line p)) = inr b -> utf8_decode b = Some s ->
  has_response_prefix s = false ->
  reply call p = SerialCommunication.sentinel.
Proof.
  intros Hr Hd Hp. unfold reply. rewrite Hr, Hd, (parse_response_no_prefix s Hp).
  destruct (is_open (exchange_port call p)),
    (utf8_encode (SerialCommunication.request_text (fst call) (snd call))),
    (on_write (hd silent (line p))); reflexivity.
Qed.

Lemma reply_parsed (call : str * nbr_arg) (p : port) (b : bytes) (s : str) :
  is_open p = true \/ on_open (hd silent (line p)) = None ->
  utf8_encode (SerialCommunication.request_text (fst call) (snd call)) <> None ->
  on_write (hd silent (line p)) = None ->
  on_readline (hd silent (line p)) = inr b -> utf8_decode b = Some s ->
  reply call p = SerialCommunication.parse_response s.
Proof.
  intros Ho He Hw Hr Hd. unfold reply, exchange_port. cbn [is_open].
  rewrite Hw, Hr, Hd.
  destruct (utf8_encode (SerialCommunication.request_text (fst call) (snd call))); [|easy].
  destruct Ho as [-> | ->]; [reflexivity|]. now rewrite orb_true_r.
Qed.

End Exchange.

(** ** The accessors of Kust *)

Section Driver.

Context {U : unicode_db}.

Lemma validb_valid (cmd : str) (resp : response) :
  validb cmd resp = true <-> valid cmd resp.
Proof.
  unfold validb, valid. rewrite andb_true_iff, !str_eqb_eq. reflexivity.
Qed.

Lemma validb_invalid (cmd : str) (resp : response) :
  validb cmd resp = false <-> ~ valid cmd resp.
Proof.
  rewrite <- validb_valid. destruct (validb cmd resp); split; easy.
Qed.

(** [check_response] returns the verdict of the rule, and prints the
    response it rejects. *)
Lemma check_response_run (resp : response) (cmd : str) (w : state) :
  Kust.check_response resp cmd w
  = if validb cmd resp then (Ok true, w)
    else (Ok false, set_stdout (stdout w ++ [DebugResp resp]) w).
Proof.
  unfold Kust.check_response, validb.
  destruct (str_eqb (Command resp) cmd), (str_eqb (ErrCode resp) (txt "00"));
    reflexivity.
Qed.

Lemma self_comm_run (w : state) :
  Kust.self_comm w
  = match comm w with
    | Some c => (Ok c, w)
    | None => (Raise AttributeError, w)
    end.
Proof.
  unfold Kust.self_comm, Kust.get_comm, bind, option_raise. now destruct (comm w).
Qed.

End Driver.

#[local] Hint Rewrite @req_resp_run @check_response_run @self_comm_run : run.

(** ** The channel loops *)

Section Loops.

Context {U : unicode_db}.

(** One turn of a channel loop. *)
Lemma channel_loop_step {A : Type} (req cmd : str) (conv : str -> option A)
    (i : nat) (range : list nat) (t : list (option A)) (w : state) :
  comm w <> None ->
  let call := (req, NbrInt (Z.of_nat i + 1)) in
  let r := reply call (ser w) in
  let w1 := set_ser (exchange_port call (ser w)) w in
  channel_loop req cmd conv (i :: range) t w
  = if validb cmd r then
      match conv (Value r) with
      | Some y => channel_loop req cmd conv range (<[i := Some y]> t) w1
      | None => (Raise ValueError, w1)
      end
    else (Ok [], set_stdout (stdout w1 ++ [DebugResp r]) w1).
Proof.
  intros Hc call r w1. destruct (comm w) as [c|] eqn:E; [|easy].
  cbn [channel_loop]. do 3 step. fold call r w1.
  destruct (validb cmd r); cbn [negb]; [|reflexivity].
  unfold bind, option_raise. destruct (conv (Value r)); reflexivity.
Qed.

(** A loop all of whose responses are valid and convertible runs to its end
    and stores every value. *)
Lemma channel_loop_success {A : Type} (req cmd : str) (conv : str -> option A)
    (range : list nat) :
  forall (t : list (option A)) (w : state) (ys : list A),
    comm w <> None ->
    Forall2 (fun r y => valid cmd r /\ conv (Value r) = Some y)
      (replies (calls_of req range) (ser w)) ys ->
    channel_loop req cmd conv range t w
    = (Ok (fill range ys t), set_ser (run_port (calls_of req range) (ser w)) w).
Proof.
  induction range as [|i range IH]; intros t w ys Hc H.
  - cbn in H. apply Forall2_nil_inv_l in H as ->. destruct w as [c p ctor out]. reflexivity.
  - cbn [calls_of map replies] in H. apply Forall2_cons_inv_l in H as (y & ys' & [Hv Hy] & H & ->).
    rewrite channel_loop_step by assumption.
    apply validb_valid in Hv. rewrite Hv, Hy.
    rewrite (IH _ _ ys'); [reflexivity|assumption|exact H].
Qed.

(** A loop gives up at the first response that is not valid, whatever it
    has read before. *)
Lemma channel_loop_abort {A : Type} (req cmd : str) (conv : str -> option A)
    (range : list nat) :
  forall (t : list (option A)) (w : state) (k : nat) (r : response) (ys : list A),
    comm w <> None ->
    replies (calls_of req range) (ser w) !! k = Some r ->
    ~ valid cmd r ->
    Forall2 (fun r' y => valid cmd r' /\ conv (Value r') = Some y)
      (take k (replies (calls_of req range) (ser w))) ys ->
    channel_loop req cmd conv range t w
    = (Ok [],
       set_stdout (stdout w ++ [DebugResp r])
         (set_ser (run_port (take (S k) (calls_of req range)) (ser w)) w)).
Proof.
  induction range as [|i range IH]; intros t w k r ys Hc Hk Hr H; [easy|].
  rewrite channel_loop_step by assumption.
  cbn [calls_of map replies] in Hk, H. destruct k as [|k].
  - injection Hk as <-. apply validb_invalid in Hr. rewrite Hr.
    destruct w as [c p ctor out]. reflexivity.
  - cbn [lookup list_lookup] in Hk. cbn [take] in H.
    apply Forall2_cons_inv_l in H as (y & ys' & [Hv Hy] & H & ->).
    apply validb_valid in Hv. rewrite Hv, Hy.
    rewrite (IH _ _ k r ys'); [reflexivity|assumption|exact Hk|exact Hr|exact H].
Qed.

(** The loop of [get_temperatures] has the common shape. *)
Lemma temperatures_loop_shape (range : list nat) :
  forall (t : list (option float)) (w : state),
    Kust.temperatures_loop range t w
    = channel_loop (txt "IBRT") (txt "RT") celsius range t w.
Proof.
  induction range as [|i range IH]; intros t w; [reflexivity|].
  cbn [Kust.temperatures_loop channel_loop]. unfold bind.
  destruct (Kust.self_comm w) as [[c|e] w1]; [|reflexivity].
  destruct (SerialCommunication.req_resp _ _ w1) as [[r|e] w2]; [|reflexivity].
  destruct (Kust.check_response r _ w2) as [[[|]|e] w3]; cbn [negb]; try reflexivity.
  unfold celsius, option_raise. destruct (py_float (Value r)); [apply IH|reflexivity].
Qed.

(** So has the loop of [get_rotational_frequency]. *)
Lemma rotational_loop_shape (range : list nat) :
  forall (s : list (option Z)) (w : state),
    Kust.rotational_loop range s w
    = channel_loop (txt "IBRR") (txt "RR") py_int range s w.
Proof.
  induction range as [|i range IH]; intros s w; [reflexivity|].
  cbn [Kust.rotational_loop channel_loop]. unfold bind.
  destruct (Kust.self_comm w) as [[c|e] w1]; [|reflexivity].
  destruct (SerialCommunication.req_resp _ _ w1) as [[r|e] w2]; [|reflexivity].
  destruct (Kust.check_response r _ w2) as [[[|]|e] w3]; cbn [negb]; try reflexivity.
  unfold option_raise. destruct (py_int (Value r)); [apply IH|reflexivity].
Qed.

Lemma run_port_calls (cs : list (str * nbr_arg)) :
  forall p : port, calls (run_port cs p) = calls p ++ cs.
Proof.
  induction cs as [|c cs IH]; intros p; cbn [run_port fold_left].
  - now rewrite app_nil_r.
  - fold (run_port cs (exchange_port c p)). rewrite IH. cbn [exchange_port calls].
    now rewrite <- app_assoc.
Qed.

(** The sentinel passes no validation. *)
Lemma sentinel_invalid (cmd : str) : ~ valid cmd SerialCommunication.sentinel.
Proof. intros [_ H]. discriminate H. Qed.

(** A valid reply was read from the line: the request had been written. *)
Lemma reply_valid_written (cmd : str) (c : str * nbr_arg) (p : port) :
  valid cmd (reply c p) ->
  exists b, utf8_encode (SerialCommunication.request_text (fst c) (snd c)) = Some b /\
            written (exchange_port c p) = written p ++ [b].
Proof.
  unfold reply. destruct (is_open (exchange_port c p)) eqn:Ho.
  - destruct (utf8_encode _) as [b|] eqn:Eb.
    + intros _. exists b. split; [reflexivity|].
      unfold exchange_port in *. cbn [is_open written] in *. now rewrite Eb, Ho.
    + intros H. now apply sentinel_invalid in H.
  - intros H. now apply sentinel_invalid in H.
Qed.

Lemma run_port_written (cmd : str) (cs : list (str * nbr_arg)) :
  forall (p : port) (bs : list bytes),
    Forall (valid cmd) (replies cs p) ->
    Forall2 (fun c b => utf8_encode (SerialCommunication.request_text (fst c) (snd c)) = Some b)
      cs bs ->
    written (run_port cs p) = written p ++ bs.
Proof.
  induction cs as [|c cs IH]; intros p bs Hv Hb.
  - apply Forall2_nil_inv_l in Hb as ->. cbn. now rewrite app_nil_r.
  - apply Forall2_cons_inv_l in Hb as (b & bs' & Hb & Hbs & ->).
    cbn [replies] in Hv. apply Forall_cons in Hv as [Hv Hvs].
    cbn [run_port fold_left]. fold (run_port cs (exchange_port c p)).
    rewrite (IH _ bs' Hvs Hbs).
    destruct (reply_valid_written cmd c p Hv) as (b' & Hb' & ->).
    rewrite Hb in Hb'. injection Hb' as <-. now rewrite <- app_assoc.
Qed.

Lemma Forall2_valid_Forall {A : Type} (cmd : str) (P : response -> A -> Prop)
    (rs : list response) (ys : list A) :
  Forall2 (fun r y => valid cmd r /\ P r y) rs ys -> Forall (valid cmd) rs.
Proof. induction 1 as [|r y rs ys [Hv _] _ IH]; constructor; assumption. Qed.

(** The two accessors that convert nothing do not raise on a connected
    driver. *)
Lemma get_firmware_version_run (w : state) :
  comm w <> None ->
  let r := reply (txt "IBRF", NbrStr []) (ser w) in
  let w1 := set_ser (exchange_port (txt "IBRF", NbrStr []) (ser w)) w in
  Kust.get_firmware_version w
  = if validb (txt "RF") r then (Ok (Value r), w1)
    else (Ok [], set_stdout (stdout w1 ++ [DebugResp r]) w1).
Proof.
  intros Hc r w1. destruct (comm w) as [c|] eqn:E; [clear Hc|easy].
  unfold Kust.get_firmware_version. do 3 step.
  fold r w1. destruct (validb (txt "RF") r); reflexivity.
Qed.

Lemma reset_errors_run (w : state) :
  comm w <> None ->
  let r := reply (txt "IBEI", NbrStr []) (ser w) in
  let w1 := set_ser (exchange_port (txt "IBEI", NbrStr []) (ser w)) w in
  Kust.reset_errors w
  = if validb (txt "EI") r then (Ok tt, w1)
    else (Ok tt, set_stdout (stdout w1 ++ [DebugResp r]) w1).
Proof.
  intros Hc r w1. destruct (comm w) as [c|] eqn:E; [clear Hc|easy].
  unfold Kust.reset_errors. do 3 step.
  fold r w1. destruct (validb (txt "EI") r); reflexivity.
Qed.

(** When the constructor succeeds, [connect] returns True with [comm] set and
    the port open. *)
Lemma connect_opens (device : str) (w : state) :
  serial_Serial w device = None ->
  exists w' : state,
    Kust.connect device w = (Ok true, w') /\
    comm w' = Some (SerialCommunication_on device) /\
    is_open (ser w') = true.
Proof.
  intros H. unfold Kust.connect, try_except, SerialCommunication.__init__.
  unfold bind at 1. rewrite H. eexists. repeat split.
Qed.

End Loops.

(** The result of [get_temperatures] when every response is valid and
    convertible. *)
Lemma get_temperatures_success (U : unicode_db) (w : state) (xs : list float) :
  comm w <> None ->
  Forall2 (fun r x => valid (txt "RT") r /\ py_float (Value r) = Some x)
    (replies (channel_calls (txt "IBRT") 4) (ser w)) xs ->
  Kust.get_temperatures w
  = (Ok (map (fun x => Some (truediv x 10)) xs),
     set_ser (run_port (channel_calls (txt "IBRT") 4) (ser w)) w).
Proof.
  intros Hc H.
  assert (Hy : Forall2 (fun r y => valid (txt "RT") r /\ celsius (Value r) = Some y)
                 (replies (channel_calls (txt "IBRT") 4) (ser w))
                 (map (fun x => truediv x 10) xs)).
  { apply Forall2_fmap_r. eapply Forall2_impl; [exact H|].
    intros r x [Hv Hx]. split; [exact Hv|]. unfold celsius. now rewrite Hx. }
  pose proof (Forall2_length _ _ _ H) as Hl. cbn in Hl.
  unfold Kust.get_temperatures. rewrite temperatures_loop_shape.
  rewrite (channel_loop_success _ _ _ _ _ _ _ Hc Hy).
  do 5 (destruct xs as [|? xs]; try discriminate Hl). reflexivity.
Qed.

(** * The claims *)

(** The bytes of the four temperature requests. *)
Lemma temperature_requests_encoded :
  Forall2 (fun c b => utf8_encode (SerialCommunication.request_text (fst c) (snd c)) = Some b)
    (channel_calls (txt "IBRT") 4)
    [raw "IBRT1" ++ [x0d; x0a]; raw "IBRT2" ++ [x0d; x0a];
     raw "IBRT3" ++ [x0d; x0a]; raw "IBRT4" ++ [x0d; x0a]].
Proof. repeat constructor. Qed.

(** C1 (amended).  On a connected driver [get_temperatures] calls [req_resp]
    for IBRT with the channels 1, 2, 3, 4 in this order and stops after the
    first channel whose response is not valid.  If all four responses are
    valid for RT and [float] accepts their values, it returns the four values
    divided by 10, having written the four request lines; if a response is not
    valid and [float] accepted the values read before it, it returns the empty
    list, the channels read before being dropped. *)
Theorem get_temperatures_channels (U : unicode_db) (w : state) :
  comm w <> None ->
  let cs := channel_calls (txt "IBRT") 4 in
  let rs := replies cs (ser w) in
  (forall xs : list float,
      Forall2 (fun r x => valid (txt "RT") r /\ py_float (Value r) = Some x) rs xs ->
      exists w',
        Kust.get_temperatures w = (Ok (map (fun x => Some (truediv x 10)) xs), w') /\
        length xs = 4%nat /\
        calls (ser w') = calls (ser w) ++ cs /\
        written (ser w') = written (ser w) ++
          [raw "IBRT1" ++ [x0d; x0a]; raw "IBRT2" ++ [x0d; x0a];
           raw "IBRT3" ++ [x0d; x0a]; raw "IBRT4" ++ [x0d; x0a]]) /\
  (forall (k : nat) (r : response) (xs : list float),
      rs !! k = Some r ->
      ~ valid (txt "RT") r ->
      Forall2 (fun r' x => valid (txt "RT") r' /\ py_float (Value r') = Some x) (take k rs) xs ->
      exists w',
        Kust.get_temperatures w = (Ok [], w') /\
        calls (ser w') = calls (ser w) ++ take (S k) cs).
Proof.
  intros Hc cs rs. split.
  - intros xs H.
    pose proof (Forall2_length _ _ _ H) as Hl. cbn in Hl.
    eexists. rewrite (get_temperatures_success U w xs Hc H).
    split; [reflexivity|split; [|split]].
    + now symmetry.
    + cbn [ser set_ser]. apply run_port_calls.
    + cbn [ser set_ser].
      apply (run_port_written (txt "RT")); [|exact temperature_requests_encoded].
      exact (Forall2_valid_Forall _ _ _ _ H).
  - intros k r xs Hk Hr H.
    assert (Hy : Forall2 (fun r y => valid (txt "RT") r /\ celsius (Value r) = Some y)
                   (take k rs) (map (fun x => truediv x 10) xs)).
    { apply Forall2_fmap_r. eapply Forall2_impl; [exact H|].
      intros r' x [Hv Hx]. split; [exact Hv|]. unfold celsius. now rewrite Hx. }
    eexists. unfold Kust.get_temperatures. rewrite temperatures_loop_shape.
    rewrite (channel_loop_abort _ _ _ _ _ _ k r _ Hc Hk Hr Hy).
    split; [reflexivity|]. cbn [ser set_ser set_stdout]. apply run_port_calls.
Qed.

(** The amended C1 at work: four readings, one of them negative, and a
    cycle whose third channel reports an error. *)
Lemma get_temperatures_channels_witness :
  (exists w',
     Kust.get_temperatures (U := sample_db) (connected four_readings)
     = (Ok [Some (truediv (float_of_Z 215) 10); Some (truediv (float_of_Z 198) 10);
            Some (truediv (float_of_Z (-12)) 10); Some (truediv (float_of_Z 0) 10)], w')) /\
  (exists w',
     Kust.get_temperatures (U := sample_db) (connected third_invalid) = (Ok [], w') /\
     calls (ser w') = [(txt "IBRT", NbrInt 1); (txt "IBRT", NbrInt 2); (txt "IBRT", NbrInt 3)]).
Proof.
  split.
  - destruct (get_temperatures_channels sample_db (connected four_readings)) as [Hs _];
      [discriminate|].
    destruct (Hs [float_of_Z 215; float_of_Z 198; float_of_Z (-12); float_of_Z 0])
      as (w' & H & _).
    + repeat constructor.
    + exists w'. exact H.
  - destruct (get_temperatures_channels sample_db (connected third_invalid)) as [_ Ha];
      [discriminate|].
    destruct (Ha 2%nat {| Command := txt "RT"; ErrCode := txt "07"; Value := txt "00201" |}
                [float_of_Z 215; float_of_Z 198])
      as (w' & H & Hcalls).
    + reflexivity.
    + intros [_ H]. discriminate H.
    + repeat constructor.
    + exists w'. split; [exact H|exact Hcalls].
Defined.

(** C1 as stated fails: four responses that all carry RT and 00, here
    with the value digits right after the error code so that the parsed value
    is empty, make [get_temperatures] raise ValueError instead of returning
    four values; and with such a response on channel 1 the error code 07 on
    channel 3 is never reached, so no empty list is returned either. *)
Lemma get_temperatures_counterexample :
  (Forall (valid (txt "RT"))
     (replies (U := sample_db) (channel_calls (txt "IBRT") 4) (ser (connected unsigned_readings))) /\
   fst (Kust.get_temperatures (U := sample_db) (connected unsigned_readings))
   = Raise ValueError) /\
  (Exists (fun r => ~ valid (txt "RT") r)
     (replies (U := sample_db) (channel_calls (txt "IBRT") 4)
        (ser (connected unsigned_third_invalid))) /\
   fst (Kust.get_temperatures (U := sample_db) (connected unsigned_third_invalid))
   = Raise ValueError).
Proof.
  split; split.
  - repeat constructor.
  - reflexivity.
  - do 2 apply Exists_cons_tl. apply Exists_cons_hd. intros [_ H]. discriminate H.
  - reflexivity.
Qed.

(** The bytes of the six speed requests. *)
Lemma speed_requests_encoded :
  Forall2 (fun c b => utf8_encode (SerialCommunication.request_text (fst c) (snd c)) = Some b)
    (channel_calls (txt "IBRR") 6)
    [raw "IBRR1" ++ [x0d; x0a]; raw "IBRR2" ++ [x0d; x0a]; raw "IBRR3" ++ [x0d; x0a];
     raw "IBRR4" ++ [x0d; x0a]; raw "IBRR5" ++ [x0d; x0a]; raw "IBRR6" ++ [x0d; x0a]].
Proof. repeat constructor. Qed.

(** C7 (amended).  On a connected driver [get_rotational_frequency] calls
    [req_resp] for IBRR with the channels 1 to 6 in this order and stops after
    the first channel whose response is not valid.  If all six responses are
    valid for RR and [int] accepts their values, it returns the six integers,
    unscaled, having written the six request lines; if a response is not valid
    and [int] accepted the values read before it, it returns the empty list. *)
Theorem get_rotational_frequency_channels (U : unicode_db) (w : state) :
  comm w <> None ->
  let cs := channel_calls (txt "IBRR") 6 in
  let rs := replies cs (ser w) in
  (forall ns : list Z,
      Forall2 (fun r n => valid (txt "RR") r /\ py_int (Value r) = Some n) rs ns ->
      exists w',
        Kust.get_rotational_frequency w = (Ok (map Some ns), w') /\
        length ns = 6%nat /\
        calls (ser w') = calls (ser w) ++ cs /\
        written (ser w') = written (ser w) ++
          [raw "IBRR1" ++ [x0d; x0a]; raw "IBRR2" ++ [x0d; x0a]; raw "IBRR3" ++ [x0d; x0a];
           raw "IBRR4" ++ [x0d; x0a]; raw "IBRR5" ++ [x0d; x0a]; raw "IBRR6" ++ [x0d; x0a]]) /\
  (forall (k : nat) (r : response) (ns : list Z),
      rs !! k = Some r ->
      ~ valid (txt "RR") r ->
      Forall2 (fun r' n => valid (txt "RR") r' /\ py_int (Value r') = Some n) (take k rs) ns ->
      exists w',
        Kust.get_rotational_frequency w = (Ok [], w') /\
        calls (ser w') = calls (ser w) ++ take (S k) cs).
Proof.
  intros Hc cs rs. unfold Kust.get_rotational_frequency. split.
  - intros ns H.
    pose proof (Forall2_length _ _ _ H) as Hl. cbn in Hl.
    eexists. rewrite rotational_loop_shape.
    rewrite (channel_loop_success _ _ _ _ _ _ _ Hc H).
    split; [|split; [|split]].
    + do 7 (destruct ns as [|? ns]; try discriminate Hl). reflexivity.
    + now symmetry.
    + cbn [ser set_ser]. apply run_port_calls.
    + cbn [ser set_ser].
      apply (run_port_written (txt "RR")); [|exact speed_requests_encoded].
      exact (Forall2_valid_Forall _ _ _ _ H).
  - intros k r ns Hk Hr H.
    eexists. rewrite rotational_loop_shape.
    rewrite (channel_loop_abort _ _ _ _ _ _ k r _ Hc Hk Hr H).
    split; [reflexivity|]. cbn [ser set_ser set_stdout]. apply run_port_calls.
Qed.

(** The amended C7 at work: six speeds, and a cycle whose fifth channel
    answers with the wrong command. *)
Lemma get_rotational_frequency_channels_witness :
  (exists w',
     Kust.get_rotational_frequency (U := sample_db) (connected six_speeds)
     = (Ok [Some 100; Some 250; Some 0; Some 1200; Some 99999; Some 7]%Z, w')) /\
  (exists w',
     Kust.get_rotational_frequency (U := sample_db) (connected fifth_invalid) = (Ok [], w') /\
     calls (ser w') = [(txt "IBRR", NbrInt 1); (txt "IBRR", NbrInt 2); (txt "IBRR", NbrInt 3);
                       (txt "IBRR", NbrInt 4); (txt "IBRR", NbrInt 5)]).
Proof.
  split.
  - destruct (get_rotational_frequency_channels sample_db (connected six_speeds)) as [Hs _];
      [discriminate|].
    destruct (Hs [100; 250; 0; 1200; 99999; 7]%Z) as (w' & H & _).
    + repeat constructor.
    + exists w'. exact H.
  - destruct (get_rotational_frequency_channels sample_db (connected fifth_invalid)) as [_ Ha];
      [discriminate|].
    destruct (Ha 4%nat {| Command := txt "RT"; ErrCode := txt "00"; Value := txt "00215" |}
                [100; 250; 0; 1200]%Z)
      as (w' & H & Hcalls).
    + reflexivity.
    + intros [H _]. discriminate H.
    + repeat constructor.
    + exists w'. split; [exact H|exact Hcalls].
Defined.

(** C7 as stated fails: six responses that all carry RR and 00, with the
    value digits right after the error code, make [get_rotational_frequency]
    raise ValueError instead of returning six values. *)
Lemma get_rotational_frequency_counterexample :
  Forall (valid (txt "RR"))
    (replies (U := sample_db) (channel_calls (txt "IBRR") 6) (ser (connected unsigned_speeds))) /\
  fst (Kust.get_rotational_frequency (U := sample_db) (connected unsigned_speeds))
  = Raise ValueError.
Proof. split; [repeat constructor|reflexivity]. Qed.

(** [get_oxigen_sensor], step by step. *)
Lemma get_oxigen_sensor_run (U : unicode_db) (w : state) :
  comm w <> None ->
  let r := reply (txt "IBRI", NbrStr []) (ser w) in
  let w1 := set_ser (exchange_port (txt "IBRI", NbrStr []) (ser w)) w in
  Kust.get_oxigen_sensor w
  = if validb (txt "RI") r then
      match py_float (Value r) with
      | Some x => (Ok (Float (truediv x 1000)), w1)
      | None => (Raise ValueError, w1)
      end
    else (Ok EmptyList, set_stdout (stdout w1 ++ [DebugResp r]) w1).
Proof.
  intros Hc r w1. destruct (comm w) as [c|] eqn:E; [clear Hc|easy].
  unfold Kust.get_oxigen_sensor. do 3 step.
  fold r w1. destruct (validb (txt "RI") r); cbn [negb]; [|reflexivity].
  unfold bind, option_raise, ret. destruct (py_float (Value r)); reflexivity.
Qed.

(** C8 (amended).  On a connected driver [get_oxigen_sensor] calls
    [req_resp] once, for IBRI without a channel.  If the response is valid for
    RI and [float] accepts its value, it returns the value divided by 1000,
    having written the request line; if the response is not valid, it returns
    the empty list. *)
Theorem get_oxigen_sensor_reading (U : unicode_db) (w : state) :
  comm w <> None ->
  let call := (txt "IBRI", NbrStr []) in
  let r := reply call (ser w) in
  (forall x : float,
      valid (txt "RI") r -> py_float (Value r) = Some x ->
      exists w',
        Kust.get_oxigen_sensor w = (Ok (Float (truediv x 1000)), w') /\
        calls (ser w') = calls (ser w) ++ [call] /\
        written (ser w') = written (ser w) ++ [raw "IBRI" ++ [x0d; x0a]]) /\
  (~ valid (txt "RI") r ->
      exists w',
        Kust.get_oxigen_sensor w = (Ok EmptyList, w') /\
        calls (ser w') = calls (ser w) ++ [call]).
Proof.
  intros Hc call r. rewrite (get_oxigen_sensor_run U w Hc). fold call r. split.
  - intros x Hv Hx. pose proof Hv as Hb. apply validb_valid in Hb. rewrite Hb, Hx.
    eexists. split; [reflexivity|]. cbn [ser set_ser]. split; [reflexivity|].
    destruct (reply_valid_written (txt "RI") call (ser w) Hv) as (b & Hb' & Hw).
    cbn in Hb'. injection Hb' as <-. exact Hw.
  - intros Hv. apply validb_invalid in Hv. rewrite Hv.
    eexists. split; reflexivity.
Qed.

(** The amended C8 at work: a sensor current of 4.215 mA, and a response
    with error code 12. *)
Lemma get_oxigen_sensor_reading_witness :
  (exists w',
     Kust.get_oxigen_sensor (U := sample_db) (connected [says "IBRIer00+04215"])
     = (Ok (Float (truediv (float_of_Z 4215) 1000)), w')) /\
  (exists w',
     Kust.get_oxigen_sensor (U := sample_db) (connected [says "IBRIer12+04215"])
     = (Ok EmptyList, w')).
Proof.
  split.
  - destruct (get_oxigen_sensor_reading sample_db (connected [says "IBRIer00+04215"]))
      as [Hs _]; [discriminate|].
    destruct (Hs (float_of_Z 4215)) as (w' & H & _).
    + split; reflexivity.
    + reflexivity.
    + exists w'. exact H.
  - destruct (get_oxigen_sensor_reading sample_db (connected [says "IBRIer12+04215"]))
      as [_ Ha]; [discriminate|].
    destruct Ha as (w' & H & _).
    + intros [_ H]. discriminate H.
    + exists w'. exact H.
Defined.

(** C8 as stated fails: a response that carries RI and 00, with the value
    digits right after the error code, makes [get_oxigen_sensor] raise
    ValueError instead of returning a current. *)
Lemma get_oxigen_sensor_counterexample :
  valid (txt "RI")
    (reply (U := sample_db) (txt "IBRI", NbrStr []) (ser (connected [says "IBRIer0004215"]))) /\
  fst (Kust.get_oxigen_sensor (U := sample_db) (connected [says "IBRIer0004215"]))
  = Raise ValueError.
Proof. split; [split|]; reflexivity. Qed.

(** C2, where the code departs from it: a response that passes validation
    with a value that is not a numeral (empty here, the digits having gone to
    the filler; or free text) makes the three measuring accessors raise
    ValueError, and on a driver that never connected every accessor but
    [is_raedy] raises AttributeError. *)
Theorem accessors_raise (U : unicode_db) :
  fst (Kust.get_temperatures (connected [says "IBRTer0000215"])) = Raise ValueError /\
  fst (Kust.get_temperatures (connected [says "IBRTer00 n/a"])) = Raise ValueError /\
  fst (Kust.get_rotational_frequency (connected [says "IBRRer0000100"])) = Raise ValueError /\
  fst (Kust.get_oxigen_sensor (connected [says "IBRIer0004215"])) = Raise ValueError /\
  (forall (ctor : str -> option exn) (l : list exchange),
      fst (Kust.get_firmware_version (fresh ctor l)) = Raise AttributeError /\
      fst (Kust.get_temperatures (fresh ctor l)) = Raise AttributeError /\
      fst (Kust.get_rotational_frequency (fresh ctor l)) = Raise AttributeError /\
      fst (Kust.get_oxigen_sensor (fresh ctor l)) = Raise AttributeError /\
      fst (Kust.reset_errors (fresh ctor l)) = Raise AttributeError).
Proof. repeat split; reflexivity. Qed.

(** C3 (amended).  [req_resp] never raises.  It returns the sentinel, the
    response with three empty fields, whenever opening the port, encoding or
    writing the request, reading the line or decoding it raises, and whenever
    the text read, be it empty after a timeout, does not start like a
    response; when nothing raises it returns the parse of whatever text was
    read, a line cut short by the timeout included. *)
Theorem req_resp_never_raises (U : unicode_db) (req : str) (nbr : nbr_arg) (w : state) :
  exists (r : response) (w' : state),
    SerialCommunication.req_resp req nbr w = (Ok r, w') /\
    let ex := hd silent (line (ser w)) in
    (((is_open (ser w) = false /\ on_open ex <> None) \/
      utf8_encode (SerialCommunication.request_text req nbr) = None \/
      on_write ex <> None \/
      (exists e, on_readline ex = inl e) \/
      (exists b, on_readline ex = inr b /\ utf8_decode b = None) \/
      (exists b s, on_readline ex = inr b /\ utf8_decode b = Some s /\
                   has_response_prefix s = false) \/
      on_readline ex = inr []) ->
     r = {| Command := []; ErrCode := []; Value := [] |}) /\
    (forall b s,
        (is_open (ser w) = true \/ on_open ex = None) ->
        utf8_encode (SerialCommunication.request_text req nbr) <> None ->
        on_write ex = None ->
        on_readline ex = inr b -> utf8_decode b = Some s ->
        r = SerialCommunication.parse_response s).
Proof.
  exists (reply (req, nbr) (ser w)), (set_ser (exchange_port (req, nbr) (ser w)) w).
  split; [apply req_resp_run|]. cbv zeta. split.
  - intros [[Ho Hn]|[He|[Hw|[[e Hr]|[(b & Hr & Hd)|[(b & s & Hr & Hd & Hp)|Hr]]]]]].
    + now apply reply_port_stays_closed.
    + now apply (reply_not_encodable (req, nbr)).
    + now apply reply_write_raises.
    + now apply (reply_readline_raises _ _ e).
    + now apply (reply_not_decodable _ _ b).
    + now apply (reply_malformed _ _ b s).
    + now apply (reply_malformed _ _ [] []).
  - intros b s. apply (reply_parsed (req, nbr)).
Qed.

(** C3 as stated fails for a timeout: when the two seconds expire after
    part of a line has arrived, [readline] returns that part, and [req_resp]
    returns its parse, not the sentinel.  Here the line was cut after
    [IBRTer00+002]. *)
Lemma req_resp_counterexample :
  timed_out (raw "IBRTer00+002") = true /\
  fst (SerialCommunication.req_resp (U := sample_db) (txt "IBRT") (NbrInt 1)
         (connected [answers (raw "IBRTer00+002")]))
  = Ok {| Command := txt "RT"; ErrCode := txt "00"; Value := txt "002" |} /\
  {| Command := txt "RT"; ErrCode := txt "00"; Value := txt "002" |}
  <> SerialCommunication.sentinel.
Proof. repeat split; try reflexivity. discriminate. Qed.



(** C5.  [is_raedy] never raises.  It returns True exactly when [comm] is set
    and the response to the IBRF request carries the command RF, whatever its
    error code; on a driver whose [comm] is [None] it returns False and leaves
    the serial port as it was, no call of [req_resp] made; on a connected one
    it makes the one call for IBRF.  A box that answers with error code 99 is
    ready. *)
Theorem is_raedy_command_only (U : unicode_db) (w : state) :
  (exists (b : bool) (w' : state),
      Kust.is_raedy w = (Ok b, w') /\
      (b = true <->
       comm w <> None /\ Command (reply (txt "IBRF", NbrStr []) (ser w)) = txt "RF") /\
      (comm w = None -> b = false /\ ser w' = ser w) /\
      (comm w <> None -> calls (ser w') = calls (ser w) ++ [(txt "IBRF", NbrStr [])])) /\
  fst (Kust.is_raedy (connected [says "IBRFer99"])) = Ok true.
Proof.
  split; [|reflexivity].
  unfold Kust.is_raedy, Kust.get_comm. unfold bind at 1.
  destruct (comm w) as [c|] eqn:E.
  - unfold SerialCommunication.is_raedy. unfold bind. rewrite req_resp_run.
    set (r := reply (txt "IBRF", NbrStr []) (ser w)).
    destruct (str_eqb (Command r) (txt "RF")) eqn:Er; eexists _, _;
      (split; [reflexivity|]); (split; [|split; [easy|intros _; reflexivity]]).
    + apply str_eqb_eq in Er. easy.
    + apply str_eqb_neq in Er. split; [discriminate|]. now intros [_ H].
  - eexists _, _. split; [reflexivity|]. split; [|split; [|easy]].
    + split; [discriminate|]. now intros [H _].
    + intros _. split; reflexivity.
Qed.



(** C9 (amended).  A SerialException raised while [connect] constructs the
    SerialCommunication is caught: [connect] returns False and leaves [comm]
    and the port as they were; if the driver was fresh, [is_raedy] then
    returns False without touching the port. *)
Theorem connect_catches_SerialException (U : unicode_db) (device : str) (w : state) :
  serial_Serial w device = Some SerialException ->
  exists w' : state,
    Kust.connect device w = (Ok false, w') /\
    comm w' = comm w /\ ser w' = ser w /\
    (comm w = None ->
     exists w'' : state, Kust.is_raedy w' = (Ok false, w'') /\ ser w'' = ser w).
Proof.
  intros H.
  unfold Kust.connect, try_except, SerialCommunication.__init__. unfold bind at 1.
  rewrite H. cbn [is_SerialException].
  eexists. split; [reflexivity|]. cbn. repeat split.
  intros Hc. unfold Kust.is_raedy, Kust.get_comm, bind. cbn. rewrite Hc.
  eexists. split; reflexivity.
Qed.

(** The amended C9 at work: no port COM7 on a fresh driver. *)
Lemma connect_catches_SerialException_witness :
  exists w' : state,
    Kust.connect (txt "COM7") (fresh no_port []) = (Ok false, w') /\
    fst (Kust.is_raedy (U := sample_db) w') = Ok false.
Proof.
  destruct (connect_catches_SerialException sample_db (txt "COM7") (fresh no_port []))
    as (w' & H & _ & _ & Hr); [reflexivity|].
  exists w'. split; [exact H|].
  destruct Hr as (w'' & Hr & _); [reflexivity|]. now rewrite Hr.
Defined.

(** C9 as stated fails: a failure of the constructor that is not a
    SerialException, here the ValueError for a device name with a NUL
    character in it, passes through [connect] to the caller. *)
Lemma connect_counterexample :
  serial_Serial (fresh nul_rejecting []) (txt "COM1" ++ [0]) = Some ValueError /\
  fst (Kust.connect (txt "COM1" ++ [0]) (fresh nul_rejecting []))
  = Raise ValueError.
Proof. split; reflexivity. Qed.

(** C10.  Every line with the prefix IB, two word characters, er and two
    decimal digits parses to a response that is not the sentinel, with these
    characters as command and error code, whatever follows; the command may
    consist of digits.  When only digits follow the error code up to the end of
    the line, the filler takes them all and the value is empty; so is it for
    [IBRTer0000215], which passes the validation for RT all the same. *)
Theorem parse_response_prefix_only (U : unicode_db) :
  (forall s : str,
      has_response_prefix s = true ->
      exists (c1 c2 d1 d2 : N) (rest v : str),
        s = txt "IB" ++ [c1; c2] ++ txt "er" ++ [d1; d2] ++ rest /\
        SerialCommunication.parse_response s
        = {| Command := [c1; c2]; ErrCode := [d1; d2]; Value := v |} /\
        SerialCommunication.parse_response s <> SerialCommunication.sentinel) /\
  SerialCommunication.parse_response (txt "IB12er00")
  = {| Command := txt "12"; ErrCode := txt "00"; Value := [] |} /\
  (forall (c1 c2 d1 d2 : N) (ds eol : str),
      is_word c1 = true -> is_word c2 = true ->
      is_decimal d1 = true -> is_decimal d2 = true ->
      forallb is_decimal ds = true ->
      eol = [] \/ eol = [LF] \/ eol = [CR; LF] ->
      SerialCommunication.parse_response
        (txt "IB" ++ [c1; c2] ++ txt "er" ++ [d1; d2] ++ ds ++ eol)
      = {| Command := [c1; c2]; ErrCode := [d1; d2]; Value := [] |}) /\
  SerialCommunication.parse_response (txt "IBRTer0000215")
  = {| Command := txt "RT"; ErrCode := txt "00"; Value := [] |} /\
  validb (txt "RT") (SerialCommunication.parse_response (txt "IBRTer0000215")) = true.
Proof.
  split; [|split; [reflexivity|split; [|split; reflexivity]]].
  - intros s Hs.
    destruct (has_response_prefix_shape s Hs) as (c1 & c2 & d1 & d2 & rest & -> & _).
    destruct (parse_response_prefix c1 c2 d1 d2 rest Hs) as [v Hv].
    exists c1, c2, d1, d2, rest, v. split; [reflexivity|]. split; [exact Hv|].
    rewrite Hv. discriminate.
  - intros c1 c2 d1 d2 ds eol. apply parse_response_digits_in_filler.
Qed.

(** * Beyond the claims *)

(** ** Numerals of ASCII digits *)

Lemma ascii_digit_cases (c : N) :
  ascii_digit c = true ->
  c = 48 \/ c = 49 \/ c = 50 \/ c = 51 \/ c = 52 \/ c = 53 \/ c = 54 \/ c = 55 \/
  c = 56 \/ c = 57.
Proof.
  unfold ascii_digit. rewrite andb_true_iff, !N.leb_le. lia.
Qed.

(** Facts about a single ASCII digit follow by trying the ten of them. *)
Ltac each_digit H :=
  apply ascii_digit_cases in H;
  destruct H as [->|[->|[->|[->|[->|[->|[->|[->|[->| ->]]]]]]]]].

Section Numerals.

Context {U : unicode_db}.

Lemma ascii_digit_decimal (c : N) : ascii_digit c = true -> is_decimal c = true.
Proof. intros H. each_digit H; reflexivity. Qed.

Lemma forallb_ascii_decimal (ds : str) :
  forallb ascii_digit ds = true -> forallb is_decimal ds = true.
Proof.
  induction ds as [|d ds IH]; simpl; [easy|].
  intros [Hd Hds]%andb_true_iff. now rewrite (ascii_digit_decimal d Hd), IH.
Qed.

Lemma forallb_rev (p : N -> bool) (s : str) : forallb p (rev s) = forallb p s.
Proof.
  induction s as [|c s IH]; simpl; [reflexivity|].
  rewrite forallb_app, IH. simpl. rewrite andb_true_r. apply andb_comm.
Qed.

Lemma transform_digits (ds : str) :
  forallb ascii_digit ds = true -> transform ds = ds.
Proof.
  intros H. unfold transform.
  replace (forallb (fun c => c <? 128) ds) with true; [reflexivity|].
  symmetry. induction ds as [|d ds IH]; simpl in *; [reflexivity|].
  apply andb_true_iff in H as [Hd Hds]. rewrite (IH Hds), andb_true_r.
  each_digit Hd; reflexivity.
Qed.

Lemma lstrip_digit (c : N) (s : str) :
  ascii_digit c = true -> lstrip (c :: s) = c :: s.
Proof. intros H. each_digit H; reflexivity. Qed.

Lemma rstrip_digits (ds : str) :
  forallb ascii_digit ds = true -> rstrip ds = ds.
Proof.
  intros H. unfold rstrip. rewrite <- forallb_rev in H.
  destruct (rev ds) as [|c s] eqn:E.
  - apply (f_equal (@rev N)) in E. rewrite rev_involutive in E. now subst.
  - simpl in H. apply andb_true_iff in H as [Hc _].
    rewrite (lstrip_digit c s Hc), <- E. apply rev_involutive.
Qed.

Lemma underscores_ok_digits (ds : str) :
  forall prev : N,
    (prev =? 95) = false -> forallb ascii_digit ds = true ->
    underscores_ok prev ds = true.
Proof.
  induction ds as [|d ds IH]; intros prev Hp H; simpl in *.
  - now rewrite Hp.
  - apply andb_true_iff in H as [Hd Hds].
    assert (Hu : (d =? 95) = false) by (each_digit Hd; reflexivity).
    rewrite Hu, Hp, Hd. simpl. now apply IH.
Qed.

Lemma int_underscores_ok_digits (ds : str) :
  forall prev : N,
    (prev =? 95) = false -> forallb ascii_digit ds = true ->
    int_underscores_ok prev ds = true.
Proof.
  induction ds as [|d ds IH]; intros prev Hp H; cbn [int_underscores_ok forallb] in *.
  - now rewrite Hp.
  - apply andb_true_iff in H as [Hd Hds].
    assert (Hu : (d =? 95) = false) by (each_digit Hd; reflexivity).
    rewrite Hu. cbn [andb negb]. now apply IH.
Qed.

Lemma drop_underscores_digits (ds : str) :
  forallb ascii_digit ds = true -> drop_underscores ds = ds.
Proof.
  unfold drop_underscores. induction ds as [|d ds IH]; [easy|].
  cbn [forallb]. intros [Hd Hds]%andb_true_iff.
  assert (Hu : (d =? 95) = false) by (each_digit Hd; reflexivity).
  rewrite (filter_cons_True (fun c : N => negb (c =? 95))) by now rewrite Hu.
  f_equal. now apply IH.
Qed.

Lemma span_all (p : N -> bool) (ds : str) :
  forallb p ds = true -> span p ds = (ds, []).
Proof.
  induction ds as [|d ds IH]; simpl; [easy|].
  intros [-> Hds]%andb_true_iff. now rewrite IH.
Qed.

Lemma float_of_decimal_integer (m : N) :
  float_of_decimal false m 0 = float_of_Z (Z.of_N m).
Proof.
  destruct m as [|p]; [reflexivity|].
  unfold float_of_decimal, float_of_Z. cbn. now rewrite Pos.mul_1_r.
Qed.

(** [float] reads a text of ASCII digits as the float nearest to the number
    it denotes. *)
Lemma py_float_digits (ds : str) :
  ds <> [] -> forallb ascii_digit ds = true ->
  py_float ds = Some (float_of_Z (number ds)).
Proof.
  intros Hn H. unfold py_float.
  rewrite (transform_digits ds H).
  destruct ds as [|c s]; [easy|clear Hn].
  pose proof H as H'. simpl in H'. apply andb_true_iff in H' as [Hc Hs].
  rewrite (lstrip_digit c s Hc), (rstrip_digits _ H).
  rewrite (underscores_ok_digits _ 0 eq_refl H), (drop_underscores_digits _ H).
  unfold parse_float.
  assert (Hsign : split_sign (c :: s) = (false, c :: s))
    by (clear -Hc; each_digit Hc; reflexivity).
  rewrite Hsign.
  assert (Hinf : str_eqb (map lower (c :: s)) (txt "inf")
                 || str_eqb (map lower (c :: s)) (txt "infinity") = false)
    by (clear -Hc; each_digit Hc; reflexivity).
  assert (Hnan : str_eqb (map lower (c :: s)) (txt "nan") = false)
    by (clear -Hc; each_digit Hc; reflexivity).
  rewrite Hinf, Hnan, (span_all _ _ H). cbn [app length parse_exponent].
  rewrite app_nil_r. cbn [Z.of_nat Z.sub Z.opp]. unfold number.
  now rewrite float_of_decimal_integer.
Qed.

(** [int] reads it as that number. *)
Lemma py_int_digits (ds : str) :
  ds <> [] -> forallb ascii_digit ds = true -> py_int ds = Some (number ds).
Proof.
  intros Hn H. unfold py_int.
  rewrite (transform_digits ds H).
  destruct ds as [|c s]; [easy|clear Hn].
  pose proof H as H'. simpl in H'. apply andb_true_iff in H' as [Hc Hs].
  rewrite (lstrip_digit c s Hc).
  assert (Hsign : split_sign (c :: s) = (false, c :: s))
    by (clear -Hc; each_digit Hc; reflexivity).
  rewrite Hsign.
  assert (Hb : forallb (fun c => ascii_digit c || (c =? 95)) (c :: s) = true).
  { clear -H. induction (c :: s) as [|d ds IH]; simpl in *; [reflexivity|].
    apply andb_true_iff in H as [-> Hds]. simpl. now apply IH. }
  rewrite (span_all _ _ Hb), (drop_underscores_digits _ H).
  rewrite (int_underscores_ok_digits _ 0 eq_refl H).
  clear -Hc. each_digit Hc; reflexivity.
Qed.

End Numerals.

(** ** Lines with a plus sign and five digits *)

Section SignedLines.

Context {U : unicode_db}.

Lemma run_Opt (r : regex) (s : str) (g : groups) (k : str -> groups -> option groups) :
  run (Opt r) s g k
  = match run r s g k with Some m => Some m | None => k s g end.
Proof. reflexivity. Qed.

Lemma run_five_digits (a b c d e : N) (rest : str) (g : groups)
    (k : str -> groups -> option groups) :
  is_decimal a = true -> is_decimal b = true -> is_decimal c = true ->
  is_decimal d = true -> is_decimal e = true ->
  run (Rep 5 (Atom Digit)) (a :: b :: c :: d :: e :: rest) g k = k rest g.
Proof.
  intros Ha Hb Hc Hd He. cbn [run Rep atom_ok]. now rewrite Ha, Hb, Hc, Hd, He.
Qed.

(** After the error code, a plus sign and five decimal digits are the
    value, whatever follows them. *)
Lemma run_plus_five_digits (a b c d e : N) (rest : str) (g : groups) :
  is_decimal a = true -> is_decimal b = true -> is_decimal c = true ->
  is_decimal d = true -> is_decimal e = true ->
  run filler_and_value (43 :: a :: b :: c :: d :: e :: rest) g accept
  = Some (set_group 3 [a; b; c; d; e] g).
Proof.
  intros Ha Hb Hc Hd He.
  unfold filler_and_value. rewrite run_Cat, run_Star. cbn [star atom_ok].
  change (is_word 43) with false. cbv iota.
  rewrite run_Cat, run_Opt. cbn [run atom_ok].
  change (is_space 43) with false. change (43 =? 43) with true. cbv iota.
  rewrite run_five_digits by assumption.
  pose proof (consumed_app [a; b; c; d; e] rest) as Hcons. simpl app in Hcons.
  unfold accept. now rewrite Hcons.
Qed.

(** X1.  A line with the response prefix, a plus sign and five decimal
    digits parses to these five digits as value: nothing that follows them,
    further digits included, gets into the value. *)
Theorem parse_response_plus_five_digits
    (c1 c2 d1 d2 a b c d e : N) (rest : str) :
  is_word c1 = true -> is_word c2 = true ->
  is_decimal d1 = true -> is_decimal d2 = true ->
  is_decimal a = true -> is_decimal b = true -> is_decimal c = true ->
  is_decimal d = true -> is_decimal e = true ->
  SerialCommunication.parse_response
    (txt "IB" ++ [c1; c2] ++ txt "er" ++ [d1; d2] ++ txt "+" ++ [a; b; c; d; e] ++ rest)
  = {| Command := [c1; c2]; ErrCode := [d1; d2]; Value := [a; b; c; d; e] |}.
Proof.
  intros Hc1 Hc2 Hd1 Hd2 Ha Hb Hc Hd He.
  unfold SerialCommunication.parse_response, re_match.
  rewrite pattern_split. cbn [txt app map list_ascii_of_string N_of_ascii N_of_digits
    N.add N.mul Pos.add Pos.mul Pos.succ].
  rewrite run_prefix. cbn [has_response_prefix].
  rewrite Hc1, Hc2, Hd1, Hd2. cbn [N.eqb Pos.eqb andb].
  fold accept. now rewrite run_plus_five_digits.
Qed.

End SignedLines.

(** X1 at work: a sixth digit stays out of the value. *)
Lemma parse_response_plus_five_digits_witness :
  SerialCommunication.parse_response (U := sample_db) (txt "IBRTer00+002157")
  = {| Command := txt "RT"; ErrCode := txt "00"; Value := txt "00215" |}.
Proof.
  exact (parse_response_plus_five_digits (U := sample_db) 82 84 48 48 48 48 50 49 53 [55]
           eq_refl eq_refl eq_refl eq_refl eq_refl eq_refl eq_refl eq_refl eq_refl).
Defined.

(** ** Well-formed lines on every channel *)

Section WellFormed.

Context {U : unicode_db}.

Lemma parse_response_ok_line (c1 c2 : N) (ds : str) :
  is_word c1 = true -> is_word c2 = true -> five_digits ds ->
  SerialCommunication.parse_response (ok_line [c1; c2] ds)
  = {| Command := [c1; c2]; ErrCode := txt "00"; Value := ds |}.
Proof.
  intros Hc1 Hc2 [Hl Hd].
  do 6 (destruct ds as [|? ds]; try discriminate Hl).
  apply forallb_ascii_decimal in Hd. cbn [forallb] in Hd.
  rewrite !andb_true_iff in Hd. destruct Hd as (Ha & Hb & Hc & Hd & He & _).
  unfold SerialCommunication.parse_response, re_match, ok_line.
  rewrite pattern_split.
  change (txt "IB" ++ [c1; c2] ++ txt "er00+" ++ [n; n0; n1; n2; n3] ++ [CR; LF])
    with (73 :: 66 :: c1 :: c2 :: 101 :: 114 :: 48 :: 48 :: 43 ::
          n :: n0 :: n1 :: n2 :: n3 :: [CR; LF]).
  rewrite run_prefix. cbn [has_response_prefix].
  rewrite Hc1, Hc2. change (is_decimal 48) with true. cbn [N.eqb Pos.eqb andb].
  fold accept. now rewrite run_plus_five_digits.
Qed.

Lemma reads_reply (call : str * nbr_arg) (s : str) (p : port) :
  reads call s p -> reply call p = SerialCommunication.parse_response s.
Proof.
  intros (Ho & He & Hw & b & Hr & Hd). now apply (reply_parsed call p b s).
Qed.

Lemma delivers_replies (cs : list (str * nbr_arg)) :
  forall (ss : list str) (p : port),
    delivers cs ss p -> replies cs p = map SerialCommunication.parse_response ss.
Proof.
  induction cs as [|c cs IH]; intros [|s ss] p H; try easy.
  destruct H as [Hr Hd]. cbn [replies map].
  now rewrite (reads_reply c s p Hr), (IH ss _ Hd).
Qed.

(** Well-formed lines give valid responses with convertible values. *)
Lemma ok_lines_convert {A : Type} (c1 c2 : N) (conv : str -> option A) (f : str -> A)
    (dss : list str) :
  is_word c1 = true -> is_word c2 = true ->
  Forall five_digits dss ->
  (forall ds, five_digits ds -> conv ds = Some (f ds)) ->
  Forall2 (fun r y => valid [c1; c2] r /\ conv (Value r) = Some y)
    (map SerialCommunication.parse_response (map (ok_line [c1; c2]) dss)) (map f dss).
Proof.
  intros Hc1 Hc2 Hd Hconv. induction Hd as [|ds dss H5 _ IH]; cbn [map]; constructor.
  - rewrite (parse_response_ok_line c1 c2 ds Hc1 Hc2 H5). cbn [Value].
    split; [now split|now apply Hconv].
  - exact IH.
Qed.

Lemma five_digits_float (ds : str) :
  five_digits ds -> py_float ds = Some (float_of_Z (number ds)).
Proof.
  intros [Hl Hd]. apply py_float_digits; [|exact Hd]. now destruct ds.
Qed.

Lemma five_digits_int (ds : str) : five_digits ds -> py_int ds = Some (number ds).
Proof.
  intros [Hl Hd]. apply py_int_digits; [|exact Hd]. now destruct ds.
Qed.

End WellFormed.

(** ** Free text as value *)

Section FreeText.

Context {U : unicode_db}.

Lemma run_five_digits_fails (s : str) (g : groups) (k : str -> groups -> option groups) :
  head_free s -> run (Rep 5 (Atom Digit)) s g k = None.
Proof.
  destruct s as [|c s]; [reflexivity|]. intros [Hd _]. cbn [run Rep atom_ok]. now rewrite Hd.
Qed.

Lemma star_dot_line (v tl : str) (k : str -> option groups) :
  one_line v -> tl = [] \/ (exists tl', tl = LF :: tl') ->
  star (atom_ok Dot) (v ++ tl) k
  = match k tl with Some m => Some m | None => star (atom_ok Dot) (v ++ tl) k end.
Proof.
  intros Hv Htl. destruct (k tl) as [m|] eqn:E; [|reflexivity].
  apply star_greedy; [exact Hv|].
  destruct Htl as [->|[tl' ->]]; exact E.
Qed.

Lemma star_stop {A : Type} (p : N -> bool) (c : N) (s : str) (k : str -> option A) :
  p c = false -> star p (c :: s) k = k (c :: s).
Proof. intros H. cbn [star]. now rewrite H. Qed.

Lemma run_opt_space (s : str) (g : groups) (k : str -> groups -> option groups) :
  run (Opt (Atom Space)) (32 :: s) g k
  = match k s g with Some m => Some m | None => k (32 :: s) g end.
Proof. reflexivity. Qed.

Lemma run_opt_plus_skip (s : str) (g : groups) (k : str -> groups -> option groups) :
  head_free s -> run (Opt (Atom (Lit 43))) s g k = k s g.
Proof.
  intros H. rewrite run_Opt. cbn [run atom_ok].
  destruct s as [|c s]; [reflexivity|]. destruct H as [_ ->]. reflexivity.
Qed.

Lemma run_value_free_text (v tl : str) (g : groups) :
  one_line v -> head_free (v ++ tl) -> tl = [] \/ (exists tl', tl = LF :: tl') ->
  run (Grp 3 (Alt (Rep 5 (Atom Digit)) (Star Dot))) (v ++ tl) g accept
  = Some (set_group 3 v g).
Proof.
  intros Hv Hs Htl. cbn [run]. rewrite (run_five_digits_fails _ _ _ Hs).
  rewrite (star_dot_line v tl _ Hv Htl). unfold accept. now rewrite consumed_app.
Qed.

(** After the error code and a space, a text that no sign and no digit opens
    is the value up to the line feed. *)
Lemma run_free_text (v tl : str) (g : groups) :
  one_line v -> head_free v -> tl = [] \/ (exists tl', tl = LF :: tl') ->
  run filler_and_value (32 :: v ++ tl) g accept = Some (set_group 3 v g).
Proof.
  intros Hv Hh Htl.
  assert (Hs : head_free (v ++ tl)).
  { destruct v as [|c v]; [|exact Hh]. destruct Htl as [->|[tl' ->]]; [exact I|].
    split; reflexivity. }
  unfold filler_and_value. rewrite run_Cat, run_Star.
  rewrite star_stop by reflexivity.
  rewrite run_Cat, run_opt_space. rewrite run_Cat.
  rewrite (run_opt_plus_skip _ _ _ Hs).
  now rewrite (run_value_free_text v tl g Hv Hs Htl).
Qed.

Lemma parse_response_free_text (c1 c2 : N) (v tl : str) :
  is_word c1 = true -> is_word c2 = true ->
  one_line v -> head_free v -> tl = [] \/ (exists tl', tl = LF :: tl') ->
  SerialCommunication.parse_response (txt "IB" ++ [c1; c2] ++ txt "er00 " ++ v ++ tl)
  = {| Command := [c1; c2]; ErrCode := txt "00"; Value := v |}.
Proof.
  intros Hc1 Hc2 Hv Hh Htl.
  unfold SerialCommunication.parse_response, re_match. rewrite pattern_split.
  change (txt "IB" ++ [c1; c2] ++ txt "er00 " ++ v ++ tl)
    with (73 :: 66 :: c1 :: c2 :: 101 :: 114 :: 48 :: 48 :: 32 :: v ++ tl).
  rewrite run_prefix. cbn [has_response_prefix].
  rewrite Hc1, Hc2. change (is_decimal 48) with true. cbn [N.eqb Pos.eqb andb].
  fold accept. now rewrite run_free_text.
Qed.

Lemma one_line_CR (t : str) : one_line t -> one_line (t ++ [CR]).
Proof. unfold one_line. rewrite forallb_app. now intros ->. Qed.

Lemma head_free_CR (t : str) : head_free t -> head_free (t ++ [CR]).
Proof. destruct t as [|c t]; [now split|easy]. Qed.

End FreeText.

(** X2.  The version text keeps the carriage return of its line: when the
    box answers the IBRF request with IBRFer00, a space, a text on one line
    that no plus sign and no digit opens, carriage return and line feed,
    [get_firmware_version] returns that text with the carriage return at its
    end. *)
Theorem get_firmware_version_keeps_CR (U : unicode_db) (w : state) (t : str) :
  comm w <> None ->
  one_line t -> head_free t ->
  reads (txt "IBRF", NbrStr []) (txt "IBRFer00 " ++ t ++ [CR; LF]) (ser w) ->
  exists w' : state,
    Kust.get_firmware_version w = (Ok (t ++ [CR]), w') /\ stdout w' = stdout w.
Proof.
  intros Hc Ht Hh Hr. rewrite (get_firmware_version_run w Hc). cbv zeta.
  rewrite (reads_reply _ _ _ Hr).
  assert (Hp : SerialCommunication.parse_response (txt "IBRFer00 " ++ t ++ [CR; LF])
               = {| Command := txt "RF"; ErrCode := txt "00"; Value := t ++ [CR] |}).
  { pose proof (parse_response_free_text 82 70 (t ++ [CR]) [LF] eq_refl eq_refl
                  (one_line_CR t Ht) (head_free_CR t Hh)) as H.
    rewrite <- app_assoc in H. apply H. right. now exists []. }
  rewrite Hp. eexists. split; reflexivity.
Qed.

(** X2 at work. *)
Lemma get_firmware_version_keeps_CR_witness :
  exists w' : state,
    Kust.get_firmware_version (U := sample_db) (connected [says "IBRFer00 V1.2"])
    = (Ok (txt "V1.2" ++ [CR]), w').
Proof.
  destruct (get_firmware_version_keeps_CR sample_db (connected [says "IBRFer00 V1.2"])
              (txt "V1.2")) as (w' & H & _).
  - discriminate.
  - reflexivity.
  - split; reflexivity.
  - cbn. repeat split; try discriminate; try (left; reflexivity); eexists; split; reflexivity.
  - exists w'. exact H.
Defined.

(** ** Readings with a minus sign *)

Section MinusLines.

Context {U : unicode_db}.

Lemma SFopp_binary_round (p : positive) (e : Z) :
  SFopp (binary_round prec emax false p e) = binary_round prec emax true p e.
Proof.
  unfold binary_round, binary_round_aux.
  destruct (shl_align p e _) as [mz ez].
  destruct (shr_fexp prec emax (Z.pos mz) ez loc_Exact) as [mrs' e'].
  destruct (shr_fexp prec emax _ e' loc_Exact) as [mrs'' e''].
  destruct (shr_m mrs''); [reflexivity| |reflexivity].
  now destruct (e'' <=? emax - prec)%Z.
Qed.

Lemma float_of_decimal_negative (m : N) :
  float_of_decimal true m 0 = SFopp (float_of_Z (Z.of_N m)).
Proof.
  destruct m as [|p]; [reflexivity|].
  unfold float_of_decimal, float_of_Z. cbn [Z.leb Z.compare Z.pow Z.to_pos Z.of_N
    binary_normalize].
  now rewrite Pos.mul_1_r, SFopp_binary_round.
Qed.

Lemma rstrip_minus_digits_CR (ds : str) :
  ds <> [] -> forallb ascii_digit ds = true ->
  rstrip (45 :: ds ++ [CR]) = 45 :: ds.
Proof.
  intros Hn H. unfold rstrip.
  change (45 :: ds ++ [CR]) with ((45 :: ds) ++ [CR]).
  rewrite rev_app_distr. cbn [rev app lstrip]. change (c_space CR) with true. cbv iota.
  rewrite <- forallb_rev in H.
  destruct (rev ds) as [|c s] eqn:E.
  - apply (f_equal (@rev N)) in E. rewrite rev_involutive in E. now subst.
  - cbn [forallb] in H. apply andb_true_iff in H as [Hc _].
    cbn [app]. rewrite (lstrip_digit c _ Hc).
    change (c :: s ++ [45]) with ((c :: s) ++ [45]).
    rewrite <- E, rev_app_distr, rev_involutive. reflexivity.
Qed.

Lemma drop_underscores_minus (s : str) :
  drop_underscores (45 :: s) = 45 :: drop_underscores s.
Proof.
  unfold drop_underscores.
  now rewrite (filter_cons_True (fun c : N => negb (c =? 95))) by reflexivity.
Qed.

(** [float] reads a minus sign, ASCII digits and a carriage return as the
    negated number. *)
Lemma py_float_minus_digits_CR (ds : str) :
  ds <> [] -> forallb ascii_digit ds = true ->
  py_float (45 :: ds ++ [CR]) = Some (SFopp (float_of_Z (number ds))).
Proof.
  intros Hn H. unfold py_float.
  assert (Ha : forallb (fun c => c <? 128) (45 :: ds ++ [CR]) = true).
  { cbn [forallb]. rewrite forallb_app. cbn.
    rewrite andb_true_r. clear Hn. induction ds as [|d ds IH]; [reflexivity|].
    cbn [forallb] in *. apply andb_true_iff in H as [Hd Hds]. rewrite (IH Hds), andb_true_r.
    each_digit Hd; reflexivity. }
  unfold transform. rewrite Ha. cbn [lstrip]. change (c_space 45) with false. cbv iota.
  rewrite (rstrip_minus_digits_CR ds Hn H).
  cbn [underscores_ok]. change (45 =? 95) with false. change (0 =? 95) with false.
  cbn [negb orb andb].
  rewrite (underscores_ok_digits ds 45 eq_refl H).
  rewrite drop_underscores_minus, (drop_underscores_digits ds H).
  unfold parse_float. cbn [split_sign].
  destruct ds as [|c s]; [easy|clear Hn].
  pose proof H as H'. cbn [forallb] in H'. apply andb_true_iff in H' as [Hc Hs].
  assert (Hinf : str_eqb (map lower (c :: s)) (txt "inf")
                 || str_eqb (map lower (c :: s)) (txt "infinity") = false).
  { clear -Hc. each_digit Hc; reflexivity. }
  assert (Hnan : str_eqb (map lower (c :: s)) (txt "nan") = false).
  { clear -Hc. each_digit Hc; reflexivity. }
  rewrite Hinf, Hnan, (span_all _ _ H). cbn [app length parse_exponent].
  rewrite app_nil_r. cbn [Z.of_nat Z.sub Z.opp]. unfold number.
  now rewrite float_of_decimal_negative.
Qed.

Lemma run_opt_space_skip (c : N) (s : str) (g : groups)
    (k : str -> groups -> option groups) :
  is_space c = false -> run (Opt (Atom Space)) (c :: s) g k = k (c :: s) g.
Proof. intros H. rewrite run_Opt. cbn [run atom_ok]. now rewrite H. Qed.

(** After the error code, a minus sign opens a free text. *)
Lemma run_minus_text (v tl : str) (g : groups) :
  one_line v -> tl = [] \/ (exists tl', tl = LF :: tl') ->
  run filler_and_value ((45 :: v) ++ tl) g accept = Some (set_group 3 (45 :: v) g).
Proof.
  intros Hv Htl.
  assert (Hs : head_free ((45 :: v) ++ tl)) by (split; reflexivity).
  unfold filler_and_value. rewrite run_Cat, run_Star.
  cbn [app]. rewrite star_stop by reflexivity.
  rewrite run_Cat, run_opt_space_skip by reflexivity.
  rewrite run_Cat. change (45 :: v ++ tl) with ((45 :: v) ++ tl).
  rewrite (run_opt_plus_skip _ _ _ Hs).
  now rewrite (run_value_free_text (45 :: v) tl g Hv Hs Htl).
Qed.

Lemma one_line_digits_CR (ds : str) :
  forallb ascii_digit ds = true -> one_line (ds ++ [CR]).
Proof.
  intros H. apply one_line_CR. unfold one_line.
  induction ds as [|d ds IH]; [reflexivity|].
  cbn [forallb] in *. apply andb_true_iff in H as [Hd Hds]. rewrite (IH Hds), andb_true_r.
  each_digit Hd; reflexivity.
Qed.

(** A signed line parses to a valid response whose value [float] reads as
    the signed number. *)
Lemma signed_line_reading (c1 c2 : N) (neg : bool) (ds : str) :
  is_word c1 = true -> is_word c2 = true -> five_digits ds ->
  let r := SerialCommunication.parse_response (signed_line [c1; c2] neg ds) in
  valid [c1; c2] r /\ py_float (Value r) = Some (signed_float neg ds).
Proof.
  intros Hc1 Hc2 H5 r. subst r. destruct neg.
  - destruct H5 as [Hl Hd].
    assert (Hp : SerialCommunication.parse_response (signed_line [c1; c2] true ds)
                 = {| Command := [c1; c2]; ErrCode := txt "00";
                      Value := 45 :: ds ++ [CR] |}).
    { unfold SerialCommunication.parse_response, re_match, signed_line.
      rewrite pattern_split.
      change (txt "IB" ++ [c1; c2] ++ txt "er00" ++ [45] ++ ds ++ [CR; LF])
        with (73 :: 66 :: c1 :: c2 :: 101 :: 114 :: 48 :: 48 :: 45 :: ds ++ [CR; LF]).
      rewrite run_prefix. cbn [has_response_prefix].
      rewrite Hc1, Hc2. change (is_decimal 48) with true. cbn [N.eqb Pos.eqb andb].
      fold accept.
      pose proof (run_minus_text (ds ++ [CR]) [LF]
                    (set_group 2 [48; 48] (set_group 1 [c1; c2] no_groups))
                    (one_line_digits_CR ds Hd)) as H.
      cbn [app] in H. rewrite <- app_assoc in H. cbn [app] in H.
      rewrite H; [reflexivity|]. right. now exists []. }
    rewrite Hp. cbn [Value]. split; [now split|].
    apply py_float_minus_digits_CR; [now destruct ds|exact Hd].
  - change (signed_line [c1; c2] false ds) with (ok_line [c1; c2] ds).
    rewrite (parse_response_ok_line c1 c2 ds Hc1 Hc2 H5). cbn [Value].
    split; [now split|]. now apply five_digits_float.
Qed.

End MinusLines.

(** X3.  When each of the four temperature channels answers with a line of
    the form IBRTer00+ddddd or IBRTer00-ddddd, [get_temperatures] does not
    raise and returns, in channel order, the signed numbers divided by 10; it
    prints no diagnostic.  (Behind a minus sign the value is free text, line
    end included, which [float] strips.) *)
Theorem get_temperatures_signed_lines (U : unicode_db) (w : state)
    (rs : list (bool * str)) :
  comm w <> None ->
  Forall (fun nd => five_digits (snd nd)) rs ->
  delivers (channel_calls (txt "IBRT") 4)
    (map (fun nd => signed_line (txt "RT") (fst nd) (snd nd)) rs) (ser w) ->
  exists w' : state,
    Kust.get_temperatures w
    = (Ok (map (fun nd => Some (truediv (signed_float (fst nd) (snd nd)) 10)) rs), w') /\
    length rs = 4%nat /\
    stdout w' = stdout w.
Proof.
  intros Hc Hd Hl.
  assert (H : Forall2 (fun r x => valid (txt "RT") r /\ py_float (Value r) = Some x)
                (replies (channel_calls (txt "IBRT") 4) (ser w))
                (map (fun nd => signed_float (fst nd) (snd nd)) rs)).
  { rewrite (delivers_replies _ _ _ Hl). clear Hl.
    induction Hd as [|[neg ds] rs H5 _ IH]; cbn [map]; constructor; [|exact IH].
    exact (signed_line_reading 82 84 neg ds eq_refl eq_refl H5). }
  pose proof (Forall2_length _ _ _ H) as Hn. rewrite length_map in Hn. cbn in Hn.
  eexists. rewrite (get_temperatures_success U w _ Hc H), map_map.
  split; [reflexivity|]. split; [now symmetry|reflexivity].
Qed.

(** X3 at work: 21.5, 19.8, -1.2 and 0.0 degrees. *)
Lemma get_temperatures_signed_lines_witness :
  exists w' : state,
    Kust.get_temperatures (U := sample_db) (connected four_readings)
    = (Ok [Some (truediv (float_of_Z 215) 10); Some (truediv (float_of_Z 198) 10);
           Some (truediv (SFopp (float_of_Z 12)) 10); Some (truediv (float_of_Z 0) 10)], w').
Proof.
  destruct (get_temperatures_signed_lines sample_db (connected four_readings)
              [(false, txt "00215"); (false, txt "00198"); (true, txt "00012");
               (false, txt "00000")])
    as (w' & H & _).
  - discriminate.
  - repeat constructor.
  - cbn. repeat split; try discriminate; try (left; reflexivity); eexists; split; reflexivity.
  - exists w'. exact H.
Defined.

(** The result of [get_rotational_frequency] when every response is valid
    and convertible. *)
Lemma get_rotational_frequency_success (U : unicode_db) (w : state) (ns : list Z) :
  comm w <> None ->
  Forall2 (fun r n => valid (txt "RR") r /\ py_int (Value r) = Some n)
    (replies (channel_calls (txt "IBRR") 6) (ser w)) ns ->
  Kust.get_rotational_frequency w
  = (Ok (map Some ns), set_ser (run_port (channel_calls (txt "IBRR") 6) (ser w)) w).
Proof.
  intros Hc H.
  pose proof (Forall2_length _ _ _ H) as Hl. cbn in Hl.
  unfold Kust.get_rotational_frequency. rewrite rotational_loop_shape.
  rewrite (channel_loop_success _ _ _ _ _ _ _ Hc H).
  do 7 (destruct ns as [|? ns]; try discriminate Hl). reflexivity.
Qed.

(** X4.  When each of the six stirrer channels answers with a line of the
    form IBRRer00+ddddd, [get_rotational_frequency] does not raise and
    returns, in channel order, the numbers the digits denote; it prints no
    diagnostic. *)
Theorem get_rotational_frequency_ok_lines (U : unicode_db) (w : state) (dss : list str) :
  comm w <> None ->
  Forall five_digits dss ->
  delivers (channel_calls (txt "IBRR") 6) (map (ok_line (txt "RR")) dss) (ser w) ->
  exists w' : state,
    Kust.get_rotational_frequency w = (Ok (map (fun ds => Some (number ds)) dss), w') /\
    length dss = 6%nat /\
    stdout w' = stdout w.
Proof.
  intros Hc Hd Hl.
  assert (H : Forall2 (fun r n => valid (txt "RR") r /\ py_int (Value r) = Some n)
                (replies (channel_calls (txt "IBRR") 6) (ser w)) (map number dss)).
  { rewrite (delivers_replies _ _ _ Hl).
    apply (ok_lines_convert 82 82 py_int); try reflexivity; [exact Hd|].
    exact five_digits_int. }
  pose proof (Forall2_length _ _ _ H) as Hn. rewrite length_map in Hn. cbn in Hn.
  eexists. rewrite (get_rotational_frequency_success U w _ Hc H), map_map.
  split; [reflexivity|]. split; [now symmetry|reflexivity].
Qed.

(** X5.  When the box answers the IBRI request with a line of the form
    IBRIer00+ddddd, [get_oxigen_sensor] does not raise and returns the number
    the digits denote divided by 1000; it prints no diagnostic. *)
Theorem get_oxigen_sensor_ok_line (U : unicode_db) (w : state) (ds : str) :
  comm w <> None ->
  five_digits ds ->
  reads (txt "IBRI", NbrStr []) (ok_line (txt "RI") ds) (ser w) ->
  exists w' : state,
    Kust.get_oxigen_sensor w = (Ok (Float (truediv (float_of_Z (number ds)) 1000)), w') /\
    stdout w' = stdout w.
Proof.
  intros Hc Hd Hr. rewrite (get_oxigen_sensor_run U w Hc). cbv zeta.
  rewrite (reads_reply _ _ _ Hr).
  rewrite (parse_response_ok_line 82 73 ds eq_refl eq_refl Hd). cbn [Value].
  change (validb (txt "RI") {| Command := [82; 73]; ErrCode := txt "00"; Value := ds |})
    with true. cbv iota.
  rewrite (five_digits_float ds Hd). eexists. split; reflexivity.
Qed.

(** X4 and X5 at work. *)
Lemma get_rotational_frequency_ok_lines_witness :
  exists w' : state,
    Kust.get_rotational_frequency (U := sample_db) (connected six_speeds)
    = (Ok [Some 100; Some 250; Some 0; Some 1200; Some 99999; Some 7]%Z, w').
Proof.
  destruct (get_rotational_frequency_ok_lines sample_db (connected six_speeds)
              [txt "00100"; txt "00250"; txt "00000"; txt "01200"; txt "99999"; txt "00007"])
    as (w' & H & _).
  - discriminate.
  - repeat constructor.
  - cbn. repeat split; try discriminate; try (left; reflexivity); eexists; split; reflexivity.
  - exists w'. exact H.
Defined.

Lemma get_oxigen_sensor_ok_line_witness :
  exists w' : state,
    Kust.get_oxigen_sensor (U := sample_db) (connected [says "IBRIer00+04215"])
    = (Ok (Float (truediv (float_of_Z 4215) 1000)), w').
Proof.
  destruct (get_oxigen_sensor_ok_line sample_db (connected [says "IBRIer00+04215"])
              (txt "04215")) as (w' & H & _).
  - discriminate.
  - repeat constructor.
  - cbn. repeat split; try discriminate; try (left; reflexivity); eexists; split; reflexivity.
  - exists w'. exact H.
Defined.

(** ** What a channel loop can end in *)

Section Outcomes.

Context {U : unicode_db}.

Lemma run_port_app (cs cs' : list (str * nbr_arg)) (p : port) :
  run_port (cs ++ cs') p = run_port cs' (run_port cs p).
Proof. apply fold_left_app. Qed.

(** A channel loop on a connected driver ends in the empty list, in a
    ValueError or in the list with every index of its range filled; it leaves
    [comm] and the constructor alone, makes the calls of a prefix of its
    range and prints at most one diagnostic. *)
Lemma channel_loop_outcome {A : Type} (req cmd : str) (conv : str -> option A)
    (range : list nat) :
  forall (t : list (option A)) (w : state),
    comm w <> None ->
    exists (r : result (list (option A))) (w' : state),
      channel_loop req cmd conv range t w = (r, w') /\
      (r = Ok [] \/ r = Raise ValueError \/
       exists ys, length ys = length range /\ r = Ok (fill range ys t)) /\
      comm w' = comm w /\ serial_Serial w' = serial_Serial w /\
      (exists n : nat,
          (n <= length range)%nat /\ (range <> [] -> (1 <= n)%nat) /\
          ser w' = run_port (take n (calls_of req range)) (ser w)) /\
      (exists ds, stdout w' = stdout w ++ ds /\ (length ds <= 1)%nat).
Proof.
  induction range as [|i range IH]; intros t w Hc.
  - exists (Ok t), w. split; [reflexivity|]. split; [|split; [|split; [|split]]]; try reflexivity.
    + right. right. exists []. split; reflexivity.
    + exists 0%nat. split; [cbn; lia|]. split; [intros H; now destruct H|reflexivity].
    + exists []. split; [now rewrite app_nil_r|cbn; lia].
  - rewrite channel_loop_step by assumption.
    set (call := (req, NbrInt (Z.of_nat i + 1))).
    set (r := reply call (ser w)).
    set (w1 := set_ser (exchange_port call (ser w)) w).
    destruct (validb cmd r).
    + destruct (conv (Value r)) as [y|].
      * destruct (IH (<[i := Some y]> t) w1 Hc)
          as (r' & w' & -> & Hr & Hcomm & Hctor & (n & Hn & _ & Hser) & (ds & Hout & Hds)).
        exists r', w'. split; [reflexivity|]. split; [|split; [|split; [|split]]].
        -- destruct Hr as [->|[->|(ys & Hl & ->)]]; [now left|now right; left|].
           right. right. exists (y :: ys). split; [cbn; now rewrite Hl|reflexivity].
        -- exact Hcomm.
        -- exact Hctor.
        -- exists (S n). split; [cbn; lia|]. split; [lia|]. exact Hser.
        -- exists ds. now split.
      * exists (Raise ValueError), w1. split; [reflexivity|].
        split; [now right; left|]. split; [reflexivity|]. split; [reflexivity|]. split.
        -- exists 1%nat. split; [cbn; lia|]. split; [lia|]. reflexivity.
        -- exists []. split; [now rewrite app_nil_r|cbn; lia].
    + eexists (Ok []), _. split; [reflexivity|].
      split; [now left|]. split; [reflexivity|]. split; [reflexivity|]. split.
      * exists 1%nat. split; [cbn; lia|]. split; [lia|]. reflexivity.
      * exists [DebugResp r]. split; [reflexivity|]. cbn; lia.
Qed.

End Outcomes.

(** X6.  [get_temperatures] is all or nothing.  On a driver that is not
    connected it raises AttributeError and changes nothing.  On a connected
    one it returns the empty list, or four values with no gap, or raises
    ValueError, and nothing else; it keeps the driver connected, calls
    [req_resp] for the channels 1 to n in order for some n from 1 to 4, and
    prints at most one diagnostic. *)
Theorem get_temperatures_outcomes (U : unicode_db) (w : state) :
  exists (r : result (list (option float))) (w' : state),
    Kust.get_temperatures w = (r, w') /\
    (comm w = None -> r = Raise AttributeError /\ w' = w) /\
    (comm w <> None ->
     (r = Ok [] \/ r = Raise ValueError \/
      exists xs : list float, length xs = 4%nat /\ r = Ok (map Some xs)) /\
     comm w' = comm w /\
     (exists n : nat,
         (1 <= n <= 4)%nat /\
         calls (ser w') = calls (ser w) ++ take n (channel_calls (txt "IBRT") 4)) /\
     (exists ds, stdout w' = stdout w ++ ds /\ (length ds <= 1)%nat)).
Proof.
  destruct (comm w) as [c|] eqn:E.
  - destruct (channel_loop_outcome (txt "IBRT") (txt "RT") celsius (seq 0 4)
                (replicate 4 None) w)
      as (r & w' & Hrun & Hr & Hcomm & _ & (n & Hn & Hn1 & Hser) & Hout);
      [now rewrite E|].
    exists r, w'. unfold Kust.get_temperatures. rewrite temperatures_loop_shape.
    split; [exact Hrun|]. split; [discriminate|]. intros _.
    split; [|split; [congruence|split; [|exact Hout]]].
    + destruct Hr as [->|[->|(ys & Hl & ->)]]; [now left|now right; left|].
      right. right. exists ys. split; [exact Hl|].
      cbn in Hl. do 5 (destruct ys as [|? ys]; try discriminate Hl). reflexivity.
    + exists n. split; [cbn in Hn; split; [now apply Hn1|exact Hn]|].
      rewrite Hser. apply run_port_calls.
  - exists (Raise AttributeError), w. split; [|split; [now split|easy]].
    unfold Kust.get_temperatures. cbn [seq Kust.temperatures_loop].
    unfold bind at 1. now rewrite self_comm_run, E.
Qed.

(** X7.  [get_rotational_frequency] is all or nothing in the same way, with
    six channels. *)
Theorem get_rotational_frequency_outcomes (U : unicode_db) (w : state) :
  exists (r : result (list (option Z))) (w' : state),
    Kust.get_rotational_frequency w = (r, w') /\
    (comm w = None -> r = Raise AttributeError /\ w' = w) /\
    (comm w <> None ->
     (r = Ok [] \/ r = Raise ValueError \/
      exists ns : list Z, length ns = 6%nat /\ r = Ok (map Some ns)) /\
     comm w' = comm w /\
     (exists n : nat,
         (1 <= n <= 6)%nat /\
         calls (ser w') = calls (ser w) ++ take n (channel_calls (txt "IBRR") 6)) /\
     (exists ds, stdout w' = stdout w ++ ds /\ (length ds <= 1)%nat)).
Proof.
  destruct (comm w) as [c|] eqn:E.
  - destruct (channel_loop_outcome (txt "IBRR") (txt "RR") py_int (seq 0 6)
                (replicate 6 None) w)
      as (r & w' & Hrun & Hr & Hcomm & _ & (n & Hn & Hn1 & Hser) & Hout);
      [now rewrite E|].
    exists r, w'. unfold Kust.get_rotational_frequency. rewrite rotational_loop_shape.
    split; [exact Hrun|]. split; [discriminate|]. intros _.
    split; [|split; [congruence|split; [|exact Hout]]].
    + destruct Hr as [->|[->|(ys & Hl & ->)]]; [now left|now right; left|].
      right. right. exists ys. split; [exact Hl|].
      cbn in Hl. do 7 (destruct ys as [|? ys]; try discriminate Hl). reflexivity.
    + exists n. split; [cbn in Hn; split; [now apply Hn1|exact Hn]|].
      rewrite Hser. apply run_port_calls.
  - exists (Raise AttributeError), w. split; [|split; [now split|easy]].
    unfold Kust.get_rotational_frequency. cbn [seq Kust.rotational_loop].
    unfold bind at 1. now rewrite self_comm_run, E.
Qed.

(** ** The accessors that convert nothing *)

(** X8.  On a connected driver [get_firmware_version] does not raise and
    makes the one call for IBRF.  A non-empty result is the value of a valid
    response, and then [is_raedy] in the same state answers True; a response
    that is not valid gives the empty text and one diagnostic.  (A valid
    response with an empty value gives the empty text as well.) *)
Theorem get_firmware_version_outcomes (U : unicode_db) (w : state) :
  comm w <> None ->
  let r := reply (txt "IBRF", NbrStr []) (ser w) in
  exists (v : str) (w' : state),
    Kust.get_firmware_version w = (Ok v, w') /\
    comm w' = comm w /\
    calls (ser w') = calls (ser w) ++ [(txt "IBRF", NbrStr [])] /\
    (v <> [] -> valid (txt "RF") r /\ v = Value r /\ fst (Kust.is_raedy w) = Ok true) /\
    (valid (txt "RF") r -> v = Value r /\ stdout w' = stdout w) /\
    (~ valid (txt "RF") r -> v = [] /\ stdout w' = stdout w ++ [DebugResp r]).
Proof.
  intros Hc r. rewrite (get_firmware_version_run w Hc). fold r.
  assert (Hready : valid (txt "RF") r -> fst (Kust.is_raedy w) = Ok true).
  { intros [Hcmd _]. destruct (comm w) as [c|] eqn:E; [|easy].
    unfold Kust.is_raedy, Kust.get_comm. unfold bind at 1. cbn [fst]. rewrite E.
    unfold SerialCommunication.is_raedy, bind. rewrite req_resp_run. fold r.
    now rewrite Hcmd. }
  destruct (validb (txt "RF") r) eqn:Hv.
  - apply validb_valid in Hv. eexists _, _. split; [reflexivity|].
    split; [reflexivity|]. split; [reflexivity|]. split; [|split].
    + intros _. split; [exact Hv|]. split; [reflexivity|now apply Hready].
    + intros _. split; reflexivity.
    + intros H. now destruct H.
  - apply validb_invalid in Hv. eexists _, _. split; [reflexivity|].
    split; [reflexivity|]. split; [reflexivity|]. split; [|split].
    + intros H. now destruct H.
    + intros H. now destruct Hv.
    + intros _. split; reflexivity.
Qed.

(** X8 at work. *)
Lemma get_firmware_version_outcomes_witness :
  exists w' : state,
    Kust.get_firmware_version (U := sample_db) (connected [says "IBRFer00 V1.2"])
    = (Ok (txt "V1.2" ++ [CR]), w').
Proof.
  destruct (get_firmware_version_outcomes sample_db (connected [says "IBRFer00 V1.2"]))
    as (v & w' & H & _ & _ & _ & Hv & _); [discriminate|].
  destruct Hv as [-> _]; [split; reflexivity|].
  exists w'. exact H.
Defined.

(** X9.  On a connected driver [reset_errors] does not raise, whatever the
    box answers: it makes the one call for IBEI, returns nothing and prints a
    diagnostic exactly when the response is not valid. *)
Theorem reset_errors_outcomes (U : unicode_db) (w : state) :
  comm w <> None ->
  let r := reply (txt "IBEI", NbrStr []) (ser w) in
  exists w' : state,
    Kust.reset_errors w = (Ok tt, w') /\
    comm w' = comm w /\
    calls (ser w') = calls (ser w) ++ [(txt "IBEI", NbrStr [])] /\
    (valid (txt "EI") r -> stdout w' = stdout w) /\
    (~ valid (txt "EI") r -> stdout w' = stdout w ++ [DebugResp r]).
Proof.
  intros Hc r. rewrite (reset_errors_run w Hc). fold r.
  destruct (validb (txt "EI") r) eqn:Hv.
  - apply validb_valid in Hv. eexists. split; [reflexivity|].
    split; [reflexivity|]. split; [reflexivity|]. split; [reflexivity|].
    intros H. now destruct H.
  - apply validb_invalid in Hv. eexists. split; [reflexivity|].
    split; [reflexivity|]. split; [reflexivity|]. split; [|reflexivity].
    intros H. now destruct Hv.
Qed.

(** X9 at work: the box reports error code 03 to the reset. *)
Lemma reset_errors_outcomes_witness :
  exists w' : state,
    Kust.reset_errors (U := sample_db) (connected [says "IBEIer03"]) = (Ok tt, w') /\
    stdout w' = [DebugResp {| Command := txt "EI"; ErrCode := txt "03"; Value := [] |}].
Proof.
  destruct (reset_errors_outcomes sample_db (connected [says "IBEIer03"]))
    as (w' & H & _ & _ & _ & Hd); [discriminate|].
  exists w'. split; [exact H|]. apply Hd. intros [_ Hv]. discriminate Hv.
Defined.

(** ** The port *)

(** X10.  [open_port] opens the port only if it is not open already: on an
    open port it does nothing and cannot raise, whatever [ser.open()] would
    do; when it returns the port is open, so that a second call does
    nothing; when it raises the port is still closed and the state is as
    before. *)
Theorem open_port_idempotent (ex : exchange) (w : state) :
  (is_open (ser w) = true -> SerialCommunication.open_port ex w = (Ok tt, w)) /\
  (forall w' : state,
      SerialCommunication.open_port ex w = (Ok tt, w') ->
      is_open (ser w') = true /\
      forall ex' : exchange, SerialCommunication.open_port ex' w' = (Ok tt, w')) /\
  (forall (e : exn) (w' : state),
      SerialCommunication.open_port ex w = (Raise e, w') ->
      w' = w /\ is_open (ser w) = false /\ on_open ex = Some e).
Proof.
  unfold SerialCommunication.open_port, SerialCommunication.ser_isOpen,
    SerialCommunication.ser_open, bind, ret.
  destruct (is_open (ser w)) eqn:Ho; cbn [negb].
  - split; [reflexivity|]. split.
    + intros w' [= <-]. rewrite Ho. split; [reflexivity|]. reflexivity.
    + intros e w' [=].
  - split; [discriminate|]. destruct (on_open ex) as [e0|]; split.
    + intros w' [=].
    + intros e w' [= <- <-]. now repeat split.
    + intros w' [= <-]. split; reflexivity.
    + intros e w' [=].
Qed.

(** X11.  [req_resp] keeps the port open once it is open, records its call,
    and hands exactly its request line to [ser.write] whenever the port is
    open after the call; when opening the closed port fails it writes
    nothing, leaves the port closed and returns the sentinel.  It touches
    neither [comm] nor standard output. *)
Theorem req_resp_port (U : unicode_db) (req : str) (nbr : nbr_arg) (w : state) :
  let w' := snd (SerialCommunication.req_resp req nbr w) in
  let ex := hd silent (line (ser w)) in
  comm w' = comm w /\ stdout w' = stdout w /\
  calls (ser w') = calls (ser w) ++ [(req, nbr)] /\
  line (ser w') = tl (line (ser w)) /\
  (is_open (ser w) = true -> is_open (ser w') = true) /\
  (forall b : bytes,
      is_open (ser w') = true ->
      utf8_encode (SerialCommunication.request_text req nbr) = Some b ->
      written (ser w') = written (ser w) ++ [b]) /\
  (is_open (ser w) = false -> on_open ex <> None ->
   is_open (ser w') = false /\ written (ser w') = written (ser w) /\
   fst (SerialCommunication.req_resp req nbr w) = Ok SerialCommunication.sentinel).
Proof.
  rewrite req_resp_run. cbn [fst snd]. cbv zeta.
  split; [reflexivity|]. split; [reflexivity|]. split; [reflexivity|].
  split; [reflexivity|]. cbn [ser set_ser]. split; [|split].
  - intros Ho. unfold exchange_port. cbn [is_open]. now rewrite Ho.
  - intros b Ho Hb. unfold exchange_port in *. cbn [is_open written fst snd] in *.
    now rewrite Hb, Ho.
  - intros Ho Hn.
    assert (Hc : is_open (exchange_port (req, nbr) (ser w)) = false).
    { unfold exchange_port. cbn [is_open]. rewrite Ho.
      now destruct (on_open (hd silent (line (ser w)))). }
    split; [exact Hc|]. split.
    + unfold exchange_port in *. cbn [is_open written fst snd] in *. rewrite Hc.
      now destruct (utf8_encode (SerialCommunication.request_text req nbr)).
    + f_equal. now apply reply_port_stays_closed.
Qed.

(** ** connect *)

(** X12.  [connect] returns True exactly when the constructor of the serial
    port succeeds: the driver is then connected to that device with the port
    open, and the record of calls and writes is as before.  When the
    constructor raises, [comm] and the port stay as they were, so that a
    driver that was connected stays connected to its old port; the exception
    is swallowed, with a diagnostic, if it is a SerialException and passed on
    otherwise. *)
Theorem connect_outcomes (device : str) (w : state) :
  match serial_Serial w device with
  | None =>
      exists w' : state,
        Kust.connect device w = (Ok true, w') /\
        comm w' = Some (SerialCommunication_on device) /\
        is_open (ser w') = true /\
        line (ser w') = line (ser w) /\ calls (ser w') = calls (ser w) /\
        written (ser w') = written (ser w) /\ stdout w' = stdout w
  | Some e =>
      exists w' : state,
        Kust.connect device w
        = (if is_SerialException e then Ok false else Raise e, w') /\
        comm w' = comm w /\ ser w' = ser w /\
        stdout w' = if is_SerialException e then stdout w ++ [DebugArgs e] else stdout w
  end.
Proof.
  unfold Kust.connect, try_except, SerialCommunication.__init__.
  destruct (serial_Serial w device) as [e|] eqn:E; unfold bind at 1; rewrite E.
  - destruct (is_SerialException e); eexists; (split; [reflexivity|]); now repeat split.
  - eexists. split; [reflexivity|]. now repeat split.
Qed.

(** ** A failing transport *)

Section Failing.

Context {U : unicode_db}.

Lemma transport_fails_reply (call : str * nbr_arg) (p : port) :
  transport_fails p -> reply call p = SerialCommunication.sentinel.
Proof.
  intros [[Ho Hn]|[Hw|[[e Hr]|[(b & Hr & Hd)|Hr]]]].
  - now apply reply_port_stays_closed.
  - now apply reply_write_raises.
  - now apply (reply_readline_raises _ _ e).
  - now apply (reply_not_decodable _ _ b).
  - now apply (reply_malformed _ _ [] []).
Qed.

(** A channel loop whose first exchange fails gives up after it. *)
Lemma channel_loop_first_fails {A : Type} (req cmd : str) (conv : str -> option A)
    (i : nat) (range : list nat) (t : list (option A)) (w : state) :
  comm w <> None -> transport_fails (ser w) ->
  channel_loop req cmd conv (i :: range) t w
  = (Ok [],
     set_stdout (stdout w ++ [DebugResp SerialCommunication.sentinel])
       (set_ser (exchange_port (req, NbrInt (Z.of_nat i + 1)) (ser w)) w)).
Proof.
  intros Hc Hf. rewrite channel_loop_step by assumption.
  rewrite (transport_fails_reply _ _ Hf).
  assert (E : validb cmd SerialCommunication.sentinel = false)
    by apply validb_invalid, sentinel_invalid.
  now rewrite E.
Qed.

End Failing.

(** X13.  When the exchange that is next on the port fails, every accessor
    of a connected driver degrades to its empty value after a single request:
    the empty list for temperatures, speeds and the sensor current, the empty
    text for the version, False for readiness, and nothing for the reset;
    none raises. *)
Theorem transport_failure_degrades (U : unicode_db) (w : state) :
  comm w <> None ->
  transport_fails (ser w) ->
  (exists w', Kust.get_temperatures w = (Ok [], w') /\
              calls (ser w') = calls (ser w) ++ [(txt "IBRT", NbrInt 1)]) /\
  (exists w', Kust.get_rotational_frequency w = (Ok [], w') /\
              calls (ser w') = calls (ser w) ++ [(txt "IBRR", NbrInt 1)]) /\
  (exists w', Kust.get_oxigen_sensor w = (Ok EmptyList, w') /\
              calls (ser w') = calls (ser w) ++ [(txt "IBRI", NbrStr [])]) /\
  (exists w', Kust.get_firmware_version w = (Ok [], w') /\
              calls (ser w') = calls (ser w) ++ [(txt "IBRF", NbrStr [])]) /\
  (exists w', Kust.is_raedy w = (Ok false, w') /\
              calls (ser w') = calls (ser w) ++ [(txt "IBRF", NbrStr [])]) /\
  (exists w', Kust.reset_errors w = (Ok tt, w') /\
              calls (ser w') = calls (ser w) ++ [(txt "IBEI", NbrStr [])]).
Proof.
  intros Hc Hf.
  assert (E : forall cmd, validb cmd SerialCommunication.sentinel = false)
    by (intros cmd; apply validb_invalid, sentinel_invalid).
  split; [|split; [|split; [|split; [|split]]]].
  - eexists. unfold Kust.get_temperatures. rewrite temperatures_loop_shape.
    cbn [seq]. rewrite (channel_loop_first_fails _ _ _ _ _ _ _ Hc Hf).
    split; reflexivity.
  - eexists. unfold Kust.get_rotational_frequency. rewrite rotational_loop_shape.
    cbn [seq]. rewrite (channel_loop_first_fails _ _ _ _ _ _ _ Hc Hf).
    split; reflexivity.
  - eexists. rewrite (get_oxigen_sensor_run U w Hc). cbv zeta.
    rewrite (transport_fails_reply _ _ Hf), E. split; reflexivity.
  - eexists. rewrite (get_firmware_version_run w Hc). cbv zeta.
    rewrite (transport_fails_reply _ _ Hf), E. split; reflexivity.
  - destruct (comm w) as [c|] eqn:Ec; [|easy].
    eexists. unfold Kust.is_raedy, Kust.get_comm. unfold bind at 1. rewrite Ec.
    unfold SerialCommunication.is_raedy, bind. rewrite req_resp_run.
    rewrite (transport_fails_reply _ _ Hf). split; reflexivity.
  - eexists. rewrite (reset_errors_run w Hc). cbv zeta.
    rewrite (transport_fails_reply _ _ Hf), E. split; reflexivity.
Qed.

(** X13 at work: a port that was unplugged, and a silent line. *)
Lemma transport_failure_degrades_witness :
  fst (Kust.get_temperatures (U := sample_db) unplugged) = Ok [] /\
  written (ser (snd (Kust.get_temperatures (U := sample_db) unplugged))) = [] /\
  fst (Kust.get_rotational_frequency (U := sample_db) (connected [])) = Ok [].
Proof.
  split; [|split].
  - destruct (transport_failure_degrades sample_db unplugged) as [(w' & H & _) _].
    + discriminate.
    + left. split; [reflexivity|discriminate].
    + now rewrite H.
  - reflexivity.
  - destruct (transport_failure_degrades sample_db (connected [])) as (_ & (w' & H & _) & _).
    + discriminate.
    + do 4 right. reflexivity.
    + now rewrite H.
Defined.
